(** * The BIOS command interpreter of ecmaos (core/bios)

    A shallow embedding of [core/bios/src/bios.cpp] and of the command
    handlers under [core/bios/src/commands/], followed by the properties of
    the dispatcher, of the four handlers and of the exported entry points.

    Conventions of the embedding:
    - [std::string] is [string]; a [const char*] is read through [c_str],
      that is up to its first NUL byte;
    - a [size_t] position is a [size_pos]: an index, or the sentinel [npos];
    - a C++ call that may throw returns an [outcome];
    - the host (Emscripten's file system and allocator) is the class [Host];
    - [int] values are in [Z], with [static_cast<int>] written out;
    - the console messages are left out: nothing reads them back;
    - the memory a [std::string] asks for is granted. *)

From stdpp Require Import gmap strings list.
From Stdlib Require Import ZArith Lia Ascii.

Local Open Scope Z_scope.

(** ** Outcomes of C++ calls *)

(** What stops a call before it returns: the exception thrown by
    [std::string::substr], the one thrown by the constructor
    [std::string(size, char)] for a size beyond [max_size()], or a call
    outside a member's precondition ([back] of an empty string). *)
Inductive fault : Type :=
  | std_out_of_range
  | std_length_error
  | undefined_behaviour.

Inductive outcome (A : Type) : Type :=
  | Ret (a : A)
  | Fault (f : fault).
Arguments Ret {A} a.
Arguments Fault {A} f.

#[global] Instance outcome_ret : MRet outcome := fun _ a => Ret a.
#[global] Instance outcome_bind : MBind outcome := fun _ _ k m =>
  match m with
  | Ret a => k a
  | Fault f => Fault f
  end.

#[global] Instance outcome_fmap : FMap outcome := fun _ _ g m =>
  match m with
  | Ret a => Ret (g a)
  | Fault f => Fault f
  end.

Definition returns {A : Type} (m : outcome A) : Prop := exists a, m = Ret a.

(** ** std::string *)

Module StdString.

(** A [size_t] used as a position. Every index into a string is below
    [SIZE_MAX], so the only use of the value [SIZE_MAX] is the sentinel. *)
Definition size_pos : Type := option nat.
Definition npos : size_pos := None.
Definition at_pos (i : nat) : size_pos := Some i.

(** [size_t] is 32 bits wide on the wasm32 target of Emscripten. *)
Definition SIZE_MAX : Z := 2 ^ 32 - 1.

Definition to_size_t (p : size_pos) : Z :=
  match p with
  | Some i => Z.of_nat i
  | None => SIZE_MAX
  end.

(** [p + 1] in [size_t]: [npos + 1] wraps around to 0. *)
Definition pos_succ (p : size_pos) : size_pos :=
  match p with
  | Some i => Some (S i)
  | None => Some 0%nat
  end.

Definition empty (s : string) : bool :=
  match s with
  | EmptyString => true
  | String _ _ => false
  end.

Definition size (s : string) : Z := Z.of_nat (String.length s).

Fixpoint take (n : nat) (s : string) : string :=
  match n, s with
  | S n', String a s' => String a (take n' s')
  | _, _ => EmptyString
  end.

Fixpoint drop (n : nat) (s : string) : string :=
  match n, s with
  | S n', String _ s' => drop n' s'
  | _, _ => s
  end.

(** [s.substr(pos, n)]: throws [std::out_of_range] when [pos > size()],
    otherwise the [min(n, size() - pos)] characters from [pos]. *)
Definition substr (s : string) (pos n : size_pos) : outcome string :=
  match pos with
  | None => Fault std_out_of_range
  | Some p =>
      if (String.length s <? p)%nat then Fault std_out_of_range
      else Ret (match n with
                | Some k => take k (drop p s)
                | None => drop p s
                end)
  end.

(** [s.find(c)] *)
Fixpoint find (s : string) (c : ascii) : size_pos :=
  match s with
  | EmptyString => npos
  | String a s' =>
      if Ascii.eqb a c then at_pos 0 else S <$> find s' c
  end.

Fixpoint mem (c : ascii) (chars : string) : bool :=
  match chars with
  | EmptyString => false
  | String a chars' => Ascii.eqb c a || mem c chars'
  end.

(** [s.find_first_not_of(chars)] *)
Fixpoint find_first_not_of (s chars : string) : size_pos :=
  match s with
  | EmptyString => npos
  | String a s' =>
      if mem a chars then S <$> find_first_not_of s' chars else at_pos 0
  end.

(** [s.find_last_not_of(chars)] *)
Fixpoint find_last_not_of (s chars : string) : size_pos :=
  match s with
  | EmptyString => npos
  | String a s' =>
      match find_last_not_of s' chars with
      | Some i => at_pos (S i)
      | None => if mem a chars then npos else at_pos 0
      end
  end.

(** [s.back()], defined on non-empty strings only. *)
Fixpoint back (s : string) : option ascii :=
  match s with
  | EmptyString => None
  | String a EmptyString => Some a
  | String _ s' => back s'
  end.

(** The characters a [const char*] denotes: those before the first NUL.
    It is what [s.c_str()] hands to a C function and what the conversion
    of a C string to [std::string] copies. *)
Fixpoint c_str (s : string) : string :=
  match s with
  | EmptyString => EmptyString
  | String a s' =>
      if Ascii.eqb a "000"%char then EmptyString else String a (c_str s')
  end.

End StdString.

Import StdString.

Definition nl : string := String "010"%char EmptyString.
Definition blanks : string := String " "%char (String "009"%char EmptyString).

(** [static_cast<int>] of a [size_t] value: reduction into the 32-bit
    two's complement range. *)
Definition to_int (z : Z) : Z := (z + 2 ^ 31) mod 2 ^ 32 - 2 ^ 31.
Definition INT_MAX : Z := 2 ^ 31 - 1.

(** ** The host environment *)

(** What [std::ifstream file(path, binary | ate)] followed by [tellg],
    [seekg] and [read] of the whole file comes to:
    - [open_failed]: [is_open()] is false;
    - [size_out_of_range]: the file is open, and [tellg] reports -1 or a
      size beyond [max_size()] (as it may for what is not a regular file);
      no string of that size can be built, and no [read] of that size
      succeeds;
    - [read_failed]: [tellg] reports a size a string can have, and the
      [read] of that many bytes fails;
    - [read_ok content]: the [read] succeeds, with [content] the bytes
      read, as many as [tellg] reported. *)
Inductive ifstream_result : Type :=
  | open_failed
  | size_out_of_range
  | read_failed
  | read_ok (content : string).

(** The file system and the allocator the interpreter runs on. They are
    outside the interpreter; the class lists the calls the sources make and
    the two facts about a POSIX-like host the properties below rely on.
    Every path argument is a C string.
    - [host_opendir fs path]: [opendir], then the names [readdir] yields
      until it returns a null pointer, in that order;
    - [host_stat fs path]: [stat]; [Some d] when it returns 0, with [d] the
      value of [S_ISDIR(st.st_mode)];
    - [host_ofstream_open fs path]: the constructor of [std::ofstream];
      [None] when [is_open()] is false afterwards;
    - [host_ofstream_write fs path content]: [file << content] and the
      closing of the stream; the flag tells whether all of [content]
      reached the file (the sources do not look at it);
    - [host_remove fs path]: [remove]; [None] when it does not return 0;
    - [host_malloc n]: whether [malloc(n)] returns a non-null pointer. *)
Class Host (FS : Type) : Type := {
  host_opendir : FS -> string -> option (list string);
  host_stat : FS -> string -> option bool;
  host_ifstream : FS -> string -> ifstream_result;
  host_ofstream_open : FS -> string -> option FS;
  host_ofstream_write : FS -> string -> string -> bool * FS;
  host_remove : FS -> string -> option FS;
  host_malloc : Z -> bool;
  (** [opendir] of the empty path fails (ENOENT). *)
  host_opendir_empty : forall fs, host_opendir fs "" = None;
  (** A file that was opened for writing and wholly written reads back
      as what was written. *)
  host_read_after_write : forall fs fs1 fs2 path content content',
    host_ofstream_open fs path = Some fs1 ->
    host_ofstream_write fs1 path content = (true, fs2) ->
    host_ifstream fs2 path = read_ok content' ->
    content' = content
}.

(** ** commands.hpp *)

Record CommandResult : Type := mkResult { code : Z; output : string }.

(** A handler takes its argument and runs against the file system; it
    returns its result and the file system it leaves, or does not return. *)
Abbreviation CommandFunction FS :=
  (string -> FS -> outcome (CommandResult * FS)).

Section Commands.

Context {FS : Type} `{!Host FS}.

(** *** ls.cpp *)

(** One turn of the [readdir] loop: the text appended to [output]. *)
Definition ls_entry (fs : FS) (path d_name : string) : outcome string :=
  match back path with
  | None => Fault undefined_behaviour
  | Some last =>
      let full_path :=
        if negb (Ascii.eqb last "/"%char) then path +:+ "/" else path in
      let full_path := full_path +:+ d_name in
      match host_stat fs (c_str full_path) with
      | Some is_dir =>
          let entry_type := if is_dir then "d" else "-" in
          Ret (entry_type +:+ " " +:+ d_name +:+ nl)
      | None => Ret (d_name +:+ nl)
      end
  end.

Fixpoint ls_loop (fs : FS) (path : string) (entries : list string)
    (output : string) : outcome string :=
  match entries with
  | [] => Ret output
  | entry :: rest =>
      line ← ls_entry fs path (c_str entry);
      ls_loop fs path rest (output +:+ line)
  end.

Definition ls_path (args : string) : string :=
  if empty args then "/" else c_str args.

Definition ls : CommandFunction FS := fun args fs =>
  let path := ls_path args in
  match host_opendir fs path with
  | None =>
      let message := "Failed to open directory: " +:+ path in
      Ret (mkResult (-1) message, fs)
  | Some entries =>
      output ← ls_loop fs path entries "";
      Ret (mkResult 0 output, fs)
  end.

(** *** cat.cpp *)

(** The size [tellg] reports goes unchecked into
    [std::string content(size, 0)], which throws [std::length_error] when
    that size is out of range. *)
Definition cat : CommandFunction FS := fun args fs =>
  if empty args then Ret (mkResult (-1) "Usage: cat <filename>", fs)
  else
    match host_ifstream fs (c_str args) with
    | open_failed => Ret (mkResult (-1) "Failed to open file", fs)
    | size_out_of_range => Fault std_length_error
    | read_failed => Ret (mkResult (-1) "Failed to read file", fs)
    | read_ok content => Ret (mkResult 0 content, fs)
    end.

(** *** echo.cpp *)

Definition echo : CommandFunction FS := fun args fs =>
  match find args ">"%char with
  | Some gt_pos =>
      content ← substr args (at_pos 0) (at_pos gt_pos);
      filename ← substr args (at_pos (gt_pos + 1)) npos;
      content ← substr content (at_pos 0)
                  (pos_succ (find_last_not_of content blanks));
      filename ← substr filename (find_first_not_of filename blanks) npos;
      match host_ofstream_open fs (c_str filename) with
      | None => Ret (mkResult (-1) "Failed to open file for writing", fs)
      | Some fs1 =>
          Ret (mkResult 0 "",
               (host_ofstream_write fs1 (c_str filename) content).2)
      end
  | None => Ret (mkResult 0 args, fs)
  end.

(** *** rm.cpp *)

Definition rm : CommandFunction FS := fun args fs =>
  if empty args then Ret (mkResult (-1) "Usage: rm <filename>", fs)
  else
    match host_remove fs (c_str args) with
    | Some fs' => Ret (mkResult 0 "", fs')
    | None => Ret (mkResult (-1) "Failed to delete file", fs)
    end.

(** *** execute.cpp *)

Definition command_registry : gmap string (CommandFunction FS) :=
  list_to_map [("ls", ls); ("cat", cat); ("echo", echo); ("rm", rm)].

(** The verb and the argument [execute_command] splits a line into. *)
Definition split_command (command : string) : outcome (string * string) :=
  let space_pos := find command " "%char in
  cmd ← match space_pos with
        | Some p => substr command (at_pos 0) (at_pos p)
        | None => Ret command
        end;
  args ← match space_pos with
         | Some p => substr command (at_pos (p + 1)) npos
         | None => Ret ""
         end;
  Ret (cmd, args).

Definition execute_command (command : string) (fs : FS)
    : outcome (CommandResult * FS) :=
  '(cmd, args) ← split_command command;
  match command_registry !! cmd with
  | None => Ret (mkResult (-1) "Unknown command", fs)
  | Some handler => handler args fs
  end.

End Commands.

(** ** bios.cpp *)

Inductive KernelState : Type := BOOTING | RUNNING | PANIC.

Definition KernelState_to_int (s : KernelState) : Z :=
  match s with
  | BOOTING => 0
  | RUNNING => 1
  | PANIC => 2
  end.

(** The state the exported functions work on: the file system, the static
    [last_status], and the buffers handed to the caller and not yet freed. *)
Record kernel (FS : Type) : Type := mkKernel {
  k_fs : FS;
  last_status : Z;
  k_buffers : list string
}.
Arguments mkKernel {FS} _ _ _.
Arguments k_fs {FS} _.
Arguments last_status {FS} _.
Arguments k_buffers {FS} _.

(** What [execute_with_output] hands back: the returned pointer ([None] for
    [nullptr], otherwise the bytes of the buffer) and the value left in
    [*out_len] ([None] when [out_len] itself is null). *)
Record captured : Type := mkCaptured {
  cap_buffer : option string;
  cap_len : option Z
}.

Section Bios.

Context {FS : Type} `{!Host FS}.

(** [static int last_status = 0;] *)
Definition boot (fs : FS) : kernel FS := mkKernel fs 0 [].

Definition init (k : kernel FS) : Z * kernel FS :=
  (KernelState_to_int RUNNING, k).

Definition get_version : string := "0.1.0-wasm".

Definition set_status (k : kernel FS) (fs : FS) (status : Z) : kernel FS :=
  mkKernel fs status (k_buffers k).

(** The test [command && *command]: the C string behind a non-null
    pointer whose first byte is not NUL. *)
Definition valid_command (command : option string) : option string :=
  match command with
  | Some s => if empty (c_str s) then None else Some (c_str s)
  | None => None
  end.

Definition execute (command : option string) (k : kernel FS)
    : outcome (Z * kernel FS) :=
  match valid_command command with
  | Some cmd =>
      '(result, fs') ← execute_command cmd (k_fs k);
      Ret (code result, set_status k fs' (code result))
  | None => Ret (-1, set_status k (k_fs k) (-1))
  end.

Definition execute_with_output (command : option string) (out_len : bool)
    (k : kernel FS) : outcome (captured * kernel FS) :=
  if negb out_len then Ret (mkCaptured None None, k)
  else
    match valid_command command with
    | None => Ret (mkCaptured None (Some 0), set_status k (k_fs k) (-1))
    | Some cmd =>
        '(result, fs') ← execute_command cmd (k_fs k);
        let k' := set_status k fs' (code result) in
        if empty (output result) then Ret (mkCaptured None (Some 0), k')
        else if negb (host_malloc (size (output result) + 1))
        then Ret (mkCaptured None (Some 0), k')
        else
          let buffer := output result +:+ String "000"%char "" in
          Ret (mkCaptured (Some buffer)
                 (Some (to_int (size (output result)))),
               mkKernel fs' (code result) (buffer :: k_buffers k))
    end.

Definition get_last_status (k : kernel FS) : Z := last_status k.

(** A session: the exported calls that write [last_status], and anything
    else that happens in between (the pass-through file operations of
    bios.cpp, the host freeing a buffer), which may change the file system
    and the buffers but never [last_status]. *)
Inductive call : Type :=
  | Execute (command : option string)
  | ExecuteWithOutput (command : option string) (out_len : bool)
  | Elsewhere (fs : FS) (buffers : list string).

Definition step (c : call) (k : kernel FS) : outcome (kernel FS) :=
  match c with
  | Execute command => '(_, k') ← execute command k; Ret k'
  | ExecuteWithOutput command out_len =>
      '(_, k') ← execute_with_output command out_len k; Ret k'
  | Elsewhere fs buffers => Ret (mkKernel fs (last_status k) buffers)
  end.

Inductive reachable : kernel FS -> Prop :=
  | reachable_boot fs : reachable (boot fs)
  | reachable_step c k k' :
      reachable k -> step c k = Ret k' -> reachable k'.

End Bios.

(** *** The pass-through file operations of bios.cpp *)

(** They take their paths and contents as C strings behind non-null
    pointers (the sources do not test them), and an [out_len] that may be
    null. None of them reads or writes [last_status]. The [catch] blocks of
    [write_file] and [read_file] are never entered: the streams are used
    with their default exception mask. *)
Section Passthrough.

Context {FS : Type} `{!Host FS}.

Definition write_file (path content : string) (k : kernel FS)
    : Z * kernel FS :=
  match host_ofstream_open (k_fs k) (c_str path) with
  | None => (-1, k)
  | Some fs1 =>
      (0, mkKernel
            (host_ofstream_write fs1 (c_str path) (c_str content)).2
            (last_status k) (k_buffers k))
  end.

(** [malloc] is asked for the size [tellg] reports before the file is
    read; when the read fails the buffer is freed again, so a failed
    read and a failed [malloc] both come back as a null pointer. No
    [std::string] is built here, so a size out of range throws nothing:
    the [read] of that size fails. *)
Definition read_file (path : string) (out_len : bool) (k : kernel FS)
    : captured * kernel FS :=
  if negb out_len then (mkCaptured None None, k)
  else
    match host_ifstream (k_fs k) (c_str path) with
    | open_failed => (mkCaptured None (Some 0), k)
    | size_out_of_range => (mkCaptured None (Some 0), k)
    | read_failed => (mkCaptured None (Some 0), k)
    | read_ok content =>
        if negb (host_malloc (size content + 1))
        then (mkCaptured None (Some 0), k)
        else
          let buffer := content +:+ String "000"%char "" in
          (mkCaptured (Some buffer) (Some (to_int (size content))),
           mkKernel (k_fs k) (last_status k) (buffer :: k_buffers k))
    end.

Definition file_exists (path : string) (k : kernel FS) : Z :=
  match host_stat (k_fs k) (c_str path) with
  | Some _ => 1
  | None => 0
  end.

Definition delete_file (path : string) (k : kernel FS) : Z * kernel FS :=
  match host_remove (k_fs k) (c_str path) with
  | Some fs' => (0, mkKernel fs' (last_status k) (k_buffers k))
  | None => (-1, k)
  end.

(** The [readdir] loop of [list_directory]. *)
Fixpoint list_directory_loop (entries : list string) (result : string)
    : string :=
  match entries with
  | [] => result
  | entry :: rest =>
      list_directory_loop rest ((result +:+ c_str entry) +:+ nl)
  end.

(** [strcpy] copies the C string of [result]. *)
Definition list_directory (path : string) (out_len : bool) (k : kernel FS)
    : captured * kernel FS :=
  if negb out_len then (mkCaptured None None, k)
  else
    match host_opendir (k_fs k) (c_str path) with
    | None => (mkCaptured None (Some 0), k)
    | Some entries =>
        let result := list_directory_loop entries "" in
        if negb (host_malloc (size result + 1))
        then (mkCaptured None (Some 0), k)
        else
          let buffer := c_str result +:+ String "000"%char "" in
          (mkCaptured (Some buffer) (Some (to_int (size result))),
           mkKernel (k_fs k) (last_status k) (buffer :: k_buffers k))
    end.

End Passthrough.

(** ** A host in memory *)

(** A small host with the shape of Emscripten's MEMFS: absolute paths
    mapped to files and directories, a directory holding the names
    [readdir] yields. Paths are compared as written (no normalisation,
    no symbolic links). A directory opens for reading, with no usable
    size. It is an instance of [Host], and the concrete file system the
    examples run on. *)
Module MemFS.

Inductive node : Type :=
  | File (content : string)
  | Dir (names : list string).

Abbreviation t := (gmap string node).

(** The directory part and the last component of a path. *)
Fixpoint split_path (path : string) : option (string * string) :=
  match path with
  | EmptyString => None
  | String a rest =>
      match split_path rest with
      | Some (d, b) => Some (String a d, b)
      | None => if Ascii.eqb a "/"%char then Some ("", rest) else None
      end
  end.

Definition parent_of (d : string) : string := if empty d then "/" else d.

Definition opendir (fs : t) (path : string) : option (list string) :=
  if empty path then None
  else match fs !! path with
       | Some (Dir names) => Some names
       | _ => None
       end.

Definition stat (fs : t) (path : string) : option bool :=
  match fs !! path with
  | Some (Dir _) => Some true
  | Some (File _) => Some false
  | None => None
  end.

Definition ifstream (fs : t) (path : string) : ifstream_result :=
  match fs !! path with
  | Some (File content) => read_ok content
  | Some (Dir _) => size_out_of_range
  | None => open_failed
  end.

(** Opening for writing truncates an existing file, creates a missing one
    in an existing directory, and fails otherwise. *)
Definition ofstream_open (fs : t) (path : string) : option t :=
  match fs !! path with
  | Some (File _) => Some (<[path := File ""]> fs)
  | Some (Dir _) => None
  | None =>
      match split_path path with
      | Some (d, b) =>
          if empty b then None
          else match fs !! parent_of d with
               | Some (Dir names) =>
                   Some (<[path := File ""]>
                           (<[parent_of d := Dir (names ++ [b])]> fs))
               | _ => None
               end
      | None => None
      end
  end.

Definition ofstream_write (fs : t) (path content : string) : bool * t :=
  (true, <[path := File content]> fs).

Definition unlink (fs : t) (path : string) : t :=
  match split_path path with
  | Some (d, b) =>
      match fs !! parent_of d with
      | Some (Dir names) =>
          delete path
            (<[parent_of d :=
                 Dir (filter (fun n => n <> b) names)]> fs)
      | _ => delete path fs
      end
  | None => delete path fs
  end.

(** [remove] unlinks a file or an empty directory. *)
Definition remove (fs : t) (path : string) : option t :=
  match fs !! path with
  | Some (File _) => Some (unlink fs path)
  | Some (Dir []) => Some (unlink fs path)
  | _ => None
  end.

(** [malloc] within a 16 MiB heap. *)
Definition malloc (n : Z) : bool := n <=? 16777216.

(** The instance; its two proofs are the laws of [Host]. *)
#[global, refine] Instance host : Host t := {|
  host_opendir := opendir;
  host_stat := stat;
  host_ifstream := ifstream;
  host_ofstream_open := ofstream_open;
  host_ofstream_write := ofstream_write;
  host_remove := remove;
  host_malloc := malloc
|}.
Proof.
  - reflexivity.
  - intros fs fs1 fs2 path content content' _ Hw Hr.
    unfold ofstream_write in Hw. injection Hw as <-.
    unfold ifstream in Hr. rewrite lookup_insert_eq in Hr. congruence.
Defined.

(** A file system to run examples on: [/], [/tmp] and [/tmp/a.txt]. *)
Definition sample : t :=
  list_to_map [("/", Dir ["tmp"]);
               ("/tmp", Dir ["a.txt"]);
               ("/tmp/a.txt", File "hello")].

(** A directory that names a subdirectory, a file, and an entry with no
    node behind it, on which [stat] fails. *)
Definition dangling : t :=
  list_to_map [("/d", Dir ["sub"; "f"; "ghost"]);
               ("/d/sub", Dir []);
               ("/d/f", File "")].

End MemFS.

(** ** The vocabulary of the specification *)

(** The verbs the specification lists as registered. *)
Definition registered_verbs : list string := ["ls"; "cat"; "echo"; "rm"].

(** White space: space, tab, line feed, vertical tab, form feed and
    carriage return. *)
Definition whitespace : string :=
  String " "%char (String "009"%char (String "010"%char
    (String "011"%char (String "012"%char (String "013"%char ""))))).

Fixpoint ltrim_of (chars s : string) : string :=
  match s with
  | EmptyString => EmptyString
  | String a s' => if mem a chars then ltrim_of chars s' else s
  end.

Fixpoint rtrim_of (chars s : string) : string :=
  match s with
  | EmptyString => EmptyString
  | String a s' =>
      match rtrim_of chars s' with
      | EmptyString => if mem a chars then EmptyString else String a ""
      | r => String a r
      end
  end.

Fixpoint until_of (chars s : string) : string :=
  match s with
  | EmptyString => EmptyString
  | String a s' => if mem a chars then EmptyString
                   else String a (until_of chars s')
  end.

(** Every character of [s] is one of [chars]. *)
Fixpoint all_in (chars s : string) : bool :=
  match s with
  | EmptyString => true
  | String a s' => mem a chars && all_in chars s'
  end.

(** "The first whitespace-delimited token of a command line". *)
Definition spec_first_token (line : string) : string :=
  until_of whitespace (ltrim_of whitespace line).

(** "Trimmed": without leading or trailing white space. *)
Definition spec_trim (s : string) : string :=
  rtrim_of whitespace (ltrim_of whitespace s).

(** "The trimmed remainder of the command line after the verb". *)
Definition spec_trimmed_remainder (line : string) : string :=
  spec_trim (drop (String.length (spec_first_token line))
               (ltrim_of whitespace line)).

(** The argument the dispatcher hands to a handler. *)
Definition handler_argument (line : string) : outcome string :=
  snd <$> split_command line.


(** "Newline-joined": the entries with a line feed between neighbours. *)
Fixpoint spec_newline_joined (entries : list string) : string :=
  match entries with
  | [] => ""
  | [e] => e
  | e :: rest => e +:+ nl +:+ spec_newline_joined rest
  end.

(** The entries, each followed by a line feed. *)
Fixpoint newline_terminated (entries : list string) : string :=
  match entries with
  | [] => ""
  | e :: rest => e +:+ nl +:+ newline_terminated rest
  end.

Section Listing.

Context {FS : Type} `{!Host FS}.

(** The path whose metadata [ls] asks for. *)
Definition ls_full_path (path d_name : string) : string :=
  (if bool_decide (back path = Some "/"%char) then path else path +:+ "/")
  +:+ d_name.

(** One entry as the specification formats it: [d <name>] or [- <name>]
    after the metadata query, the bare name when the query fails. *)
Definition spec_ls_entry (fs : FS) (path d_name : string) : string :=
  match host_stat fs (c_str (ls_full_path path d_name)) with
  | Some true => "d " +:+ d_name
  | Some false => "- " +:+ d_name
  | None => d_name
  end.

Definition spec_ls_entries (fs : FS) (path : string)
    (entries : list string) : list string :=
  map (fun e => spec_ls_entry fs path (c_str e)) entries.

End Listing.

(** ** Strings *)

#[local] Arguments String.append !_ _ / : simpl nomatch.

Example find_first_space : find "echo hi > f" " "%char = at_pos 4.
Proof. reflexivity. Qed.

Example find_absent : find "just text" ">"%char = npos.
Proof. reflexivity. Qed.

Example find_last_not_of_blank_end :
  find_last_not_of "payload " blanks = at_pos 6.
Proof. reflexivity. Qed.

Example find_last_not_of_all_blank :
  pos_succ (find_last_not_of "  " blanks) = at_pos 0.
Proof. reflexivity. Qed.

Example substr_past_end : substr "abc" (at_pos 4) npos = Fault std_out_of_range.
Proof. reflexivity. Qed.

Example substr_at_end : substr "abc" (at_pos 3) npos = Ret "".
Proof. reflexivity. Qed.

Example c_str_stops_at_nul :
  c_str ("ab" +:+ String "000"%char "cd") = "ab".
Proof. reflexivity. Qed.

Lemma append_empty_r (s : string) : s +:+ "" = s.
Proof. induction s as [|a s IH]; simpl; [reflexivity | by rewrite IH]. Qed.

Lemma append_assoc (s t u : string) : (s +:+ t) +:+ u = s +:+ t +:+ u.
Proof. induction s as [|a s IH]; simpl; [reflexivity | by rewrite IH]. Qed.

Lemma length_append (s t : string) :
  String.length (s +:+ t) = (String.length s + String.length t)%nat.
Proof. induction s as [|a s IH]; simpl; [reflexivity | by rewrite IH]. Qed.

Lemma take_append_length (s t : string) : take (String.length s) (s +:+ t) = s.
Proof. induction s as [|a s IH]; simpl; [by destruct t | by rewrite IH]. Qed.

Lemma drop_append_length (s t : string) : drop (String.length s) (s +:+ t) = t.
Proof. induction s as [|a s IH]; simpl; [by destruct t | exact IH]. Qed.

(** Where [find] stops: the character is there, and not before. *)
Lemma find_Some (s : string) (c : ascii) (p : nat) :
  find s c = Some p ->
  s = take p s +:+ String c (drop (S p) s) /\ find (take p s) c = npos /\
  (p < String.length s)%nat.
Proof.
  revert p; induction s as [|a s IH]; intros p; simpl; [discriminate|].
  destruct (Ascii.eqb_spec a c) as [->|Hne].
  - intros [= <-]. simpl. split_and!; [done | done | lia].
  - destruct (find s c) as [q|] eqn:Hq; simpl; [|discriminate].
    intros [= <-]. destruct (IH q eq_refl) as (Hs & Hpre & Hlt).
    split_and!.
    + change (String a s = String a (take q s +:+ String c (drop (S q) s))).
      by rewrite <- Hs.
    + simpl. rewrite Hpre. by destruct (Ascii.eqb_spec a c).
    + simpl. lia.
Qed.

Lemma find_None_mem (s : string) (c : ascii) :
  find s c = npos <-> mem c s = false.
Proof.
  induction s as [|a s IH]; simpl; [done|].
  rewrite (Ascii.eqb_sym c a).
  destruct (Ascii.eqb a c); simpl; [done|].
  rewrite <- IH. destruct (find s c); simpl; done.
Qed.

Lemma find_append (s t : string) (c : ascii) :
  find s c = npos -> find (s +:+ String c t) c = Some (String.length s).
Proof.
  induction s as [|a s IH]; simpl.
  - by rewrite Ascii.eqb_refl.
  - destruct (Ascii.eqb a c); [discriminate|].
    destruct (find s c) eqn:Hs; [discriminate|]. intros _.
    by rewrite IH.
Qed.

Lemma substr_prefix (s : string) (n : nat) :
  substr s (at_pos 0) (at_pos n) = Ret (take n s).
Proof. unfold substr, at_pos. simpl. by destruct s. Qed.

Lemma substr_suffix (s : string) (p : nat) :
  (p <= String.length s)%nat -> substr s (at_pos p) npos = Ret (drop p s).
Proof.
  intros Hp. unfold substr, at_pos, npos.
  destruct (Nat.ltb_spec (String.length s) p); [lia | reflexivity].
Qed.

(** [pos_succ] is [+ 1] in [size_t]: an index below [SIZE_MAX] is
    incremented, and [npos + 1] wraps around to 0. *)
Lemma pos_succ_wraps (p : size_pos) :
  to_size_t p < SIZE_MAX \/ p = npos ->
  to_size_t (pos_succ p) = (to_size_t p + 1) mod 2 ^ 32.
Proof.
  unfold SIZE_MAX. intros [Hp | ->]; [|reflexivity].
  destruct p as [i|]; unfold to_size_t, pos_succ, SIZE_MAX in *; [|lia].
  rewrite Z.mod_small; lia.
Qed.

Lemma rtrim_find_last (chars s : string) :
  take (match pos_succ (find_last_not_of s chars) with
        | Some n => n
        | None => 0%nat
        end) s = rtrim_of chars s /\
  (find_last_not_of s chars = npos <-> rtrim_of chars s = "").
Proof.
  induction s as [|a s [IHt IHe]]; simpl; [done|].
  destruct (find_last_not_of s chars) as [i|] eqn:Hi; simpl in *.
  - destruct (rtrim_of chars s) eqn:Hr.
    + destruct IHe as [_ IHe]. by specialize (IHe eq_refl).
    + rewrite IHt. split; [done | split; discriminate].
  - destruct IHe as [IHe _]. rewrite (IHe eq_refl).
    destruct (mem a chars); simpl; [done|].
    split; [done | split; discriminate].
Qed.

Lemma ltrim_find_first (chars s : string) :
  match find_first_not_of s chars with
  | Some j =>
      drop j s = ltrim_of chars s /\ ltrim_of chars s <> "" /\
      (j < String.length s)%nat
  | None => all_in chars s = true
  end.
Proof.
  induction s as [|a s IH]; simpl; [done|].
  destruct (mem a chars) eqn:Ha; simpl; [|split_and!; [done | done | lia]].
  destruct (find_first_not_of s chars) as [j|]; simpl; [|done].
  destruct IH as (? & ? & ?). split_and!; [done | done | lia].
Qed.

Lemma find_first_all_in (chars s : string) :
  all_in chars s = true -> find_first_not_of s chars = npos.
Proof.
  induction s as [|a s IH]; simpl; [done|].
  destruct (mem a chars); simpl; [|done]. intros Hs. by rewrite IH.
Qed.

(** ** The dispatcher *)

Lemma split_command_space (line : string) (p : nat) :
  find line " "%char = Some p ->
  split_command line = Ret (take p line, drop (S p) line).
Proof.
  intros Hp. destruct (find_Some _ _ _ Hp) as (_ & _ & Hlt).
  unfold split_command. rewrite Hp, substr_prefix.
  replace (p + 1)%nat with (S p) by lia.
  rewrite substr_suffix by lia. reflexivity.
Qed.

Lemma split_command_no_space (line : string) :
  find line " "%char = npos -> split_command line = Ret (line, "").
Proof. intros Hp. unfold split_command. by rewrite Hp. Qed.

Lemma split_command_append (verb rest : string) :
  find verb " "%char = npos ->
  split_command (verb +:+ String " "%char rest) = Ret (verb, rest).
Proof.
  intros Hv. rewrite (split_command_space _ (String.length verb)).
  - rewrite take_append_length.
    replace (S (String.length verb))
      with (String.length (verb +:+ String " "%char ""))
      by (rewrite length_append; simpl; lia).
    replace (verb +:+ String " "%char rest)
      with ((verb +:+ String " "%char "") +:+ rest)
      by (by rewrite append_assoc).
    by rewrite drop_append_length.
  - by apply find_append.
Qed.

Section Dispatcher.

Context {FS : Type} `{!Host FS}.

(** The keys of the registry are the four registered verbs. *)
Lemma registry_lookup (cmd : string) :
  command_registry !! cmd =
    if decide (cmd = "ls") then Some ls
    else if decide (cmd = "cat") then Some cat
    else if decide (cmd = "echo") then Some echo
    else if decide (cmd = "rm") then Some rm
    else None.
Proof.
  unfold command_registry. simpl.
  repeat (case_decide; [subst cmd; by simplify_map_eq|]).
  by simplify_map_eq.
Qed.

Lemma registry_miss (cmd : string) :
  command_registry !! cmd = None <-> cmd ∉ registered_verbs.
Proof.
  rewrite registry_lookup. unfold registered_verbs.
  rewrite !not_elem_of_cons.
  repeat case_decide; split; try discriminate; try tauto.
  intros _. split_and!; try done. apply not_elem_of_nil.
Qed.

(** A registered verb is the first white-space delimited token of the
    line it was split from. *)
Lemma registered_verb_first_token (line cmd args : string) :
  split_command line = Ret (cmd, args) ->
  cmd ∈ registered_verbs ->
  spec_first_token line = cmd.
Proof.
  intros Hsplit Hin.
  destruct (find line " "%char) as [p|] eqn:Hp.
  - rewrite (split_command_space _ _ Hp) in Hsplit.
    destruct (find_Some _ _ _ Hp) as (Hline & _ & _).
    assert (Hcmd : take p line = cmd) by congruence.
    rewrite Hcmd in Hline. rewrite Hline. clear Hline Hp Hcmd Hsplit.
    generalize (drop (S p) line) as rest. intros rest.
    unfold registered_verbs in Hin.
    repeat (apply elem_of_cons in Hin as [-> | Hin]; [reflexivity|]).
    by apply elem_of_nil in Hin.
  - rewrite (split_command_no_space _ Hp) in Hsplit.
    assert (line = cmd) as -> by congruence.
    unfold registered_verbs in Hin.
    repeat (apply elem_of_cons in Hin as [-> | Hin]; [reflexivity|]).
    by apply elem_of_nil in Hin.
Qed.

Lemma split_command_returns (line : string) :
  exists cmd args, split_command line = Ret (cmd, args).
Proof.
  destruct (find line " "%char) as [p|] eqn:Hp.
  - eexists _, _. by apply split_command_space.
  - eexists _, _. by apply split_command_no_space.
Qed.

Lemma execute_command_split (line cmd args : string) (fs : FS) :
  split_command line = Ret (cmd, args) ->
  execute_command line fs =
    match command_registry !! cmd with
    | None => Ret (mkResult (-1) "Unknown command", fs)
    | Some handler => handler args fs
    end.
Proof. intros Hs. unfold execute_command. by rewrite Hs. Qed.

(** C1: a command line whose first white-space delimited token is not one
    of [ls], [cat], [echo], [rm] makes the dispatcher return code -1 with
    output "Unknown command"; the lookup of its verb finds no handler, so
    none is invoked, and the file system is the one the call started
    with. *)
Theorem unknown_verb_rejected (line : string) (fs : FS) :
  spec_first_token line ∉ registered_verbs ->
  execute_command line fs = Ret (mkResult (-1) "Unknown command", fs) /\
  exists cmd args,
    split_command line = Ret (cmd, args) /\ command_registry !! cmd = None.
Proof.
  intros Htoken.
  destruct (split_command_returns line) as (cmd & args & Hsplit).
  assert (Hmiss : command_registry !! cmd = None).
  { apply registry_miss. intros Hin.
    apply Htoken. by rewrite (registered_verb_first_token _ _ _ Hsplit Hin). }
  split; [|by eauto].
  by rewrite (execute_command_split _ _ _ _ Hsplit), Hmiss.
Qed.

(** A line that starts with a registered verb and a space reaches the
    handler of that verb with the rest of the line. *)
Ltac dispatch_to verb args :=
  rewrite (execute_command_split _ verb args)
    by (by apply (split_command_append verb));
  by rewrite registry_lookup.

Lemma execute_ls (args : string) (fs : FS) :
  execute_command ("ls " +:+ args) fs = ls args fs.
Proof. dispatch_to "ls" args. Qed.

Lemma execute_cat (args : string) (fs : FS) :
  execute_command ("cat " +:+ args) fs = cat args fs.
Proof. dispatch_to "cat" args. Qed.

Lemma execute_echo (args : string) (fs : FS) :
  execute_command ("echo " +:+ args) fs = echo args fs.
Proof. dispatch_to "echo" args. Qed.

Lemma execute_rm (args : string) (fs : FS) :
  execute_command ("rm " +:+ args) fs = rm args fs.
Proof. dispatch_to "rm" args. Qed.

(** C4, as the code has it: for a command line containing a space, the
    argument handed to the handler is the text after the first space,
    character for character; nothing is trimmed. *)
Theorem argument_is_raw_remainder (line : string) :
  mem " "%char line = true ->
  exists verb rest,
    line = verb +:+ String " "%char rest /\
    mem " "%char verb = false /\
    handler_argument line = Ret rest /\
    forall fs : FS,
      execute_command line fs =
        match command_registry !! verb with
        | None => Ret (mkResult (-1) "Unknown command", fs)
        | Some handler => handler rest fs
        end.
Proof.
  intros Hsp.
  destruct (find line " "%char) as [p|] eqn:Hp;
    [|apply find_None_mem in Hp; congruence].
  destruct (find_Some _ _ _ Hp) as (Hline & Hverb & _).
  pose proof (split_command_space _ _ Hp) as Hsplit.
  exists (take p line), (drop (S p) line). split_and!.
  - exact Hline.
  - by apply find_None_mem.
  - unfold handler_argument. by rewrite Hsplit.
  - intros fs. by apply execute_command_split.
Qed.

End Dispatcher.

(** C4, as the specification words it, fails: after [echo] and one space
    the line below goes on with a space, [hi] and a space; the handler
    receives all of it, where the trimmed remainder is [hi]. *)
Lemma argument_not_trimmed :
  mem " "%char "echo  hi " = true /\
  handler_argument "echo  hi " = Ret " hi " /\
  spec_trimmed_remainder "echo  hi " = "hi" /\
  handler_argument "echo  hi " <> Ret (spec_trimmed_remainder "echo  hi ").
Proof.
  split_and!; [reflexivity | reflexivity | reflexivity | discriminate].
Qed.

Lemma argument_is_raw_remainder_witness :
  exists verb rest,
    "echo  hi " = verb +:+ String " "%char rest /\
    mem " "%char verb = false /\
    handler_argument "echo  hi " = Ret rest /\
    forall fs : MemFS.t,
      execute_command "echo  hi " fs =
        match command_registry !! verb with
        | None => Ret (mkResult (-1) "Unknown command", fs)
        | Some handler => handler rest fs
        end.
Proof. apply (argument_is_raw_remainder "echo  hi "). reflexivity. Defined.

Lemma unknown_verb_rejected_witness :
  execute_command "mkdir /tmp/x" MemFS.sample
    = Ret (mkResult (-1) "Unknown command", MemFS.sample) /\
  exists cmd args,
    split_command "mkdir /tmp/x" = Ret (cmd, args) /\
    command_registry (FS := MemFS.t) !! cmd = None.
Proof.
  apply (unknown_verb_rejected "mkdir /tmp/x" MemFS.sample).
  apply (proj1 (bool_decide_eq_false _)). reflexivity.
Defined.

(** ** The handlers *)

Section Handlers.

Context {FS : Type} `{!Host FS}.

(** *** echo *)

Lemma echo_plain (args : string) (fs : FS) :
  mem ">"%char args = false -> echo args fs = Ret (mkResult 0 args, fs).
Proof.
  intros Hgt. apply find_None_mem in Hgt. unfold echo. by rewrite Hgt.
Qed.

(** The redirecting form, with the two trimming steps named: the text
    before the first [>] loses its trailing blanks, the text after it its
    leading blanks; when nothing but blanks follows the [>], the second
    [substr] throws. *)
Lemma echo_redirect (text rest : string) (fs : FS) :
  mem ">"%char text = false ->
  echo (text +:+ String ">"%char rest) fs =
    match find_first_not_of rest blanks with
    | None => Fault std_out_of_range
    | Some _ =>
        let filename := c_str (ltrim_of blanks rest) in
        match host_ofstream_open fs filename with
        | None => Ret (mkResult (-1) "Failed to open file for writing", fs)
        | Some fs1 =>
            Ret (mkResult 0 "",
                 (host_ofstream_write fs1 filename
                    (rtrim_of blanks text)).2)
        end
    end.
Proof.
  intros Hgt. apply find_None_mem in Hgt.
  unfold echo. rewrite (find_append _ rest _ Hgt).
  rewrite substr_prefix, take_append_length.
  rewrite substr_suffix by (rewrite length_append; simpl; lia).
  replace (String.length text + 1)%nat
    with (String.length (text +:+ String ">"%char ""))
    by (rewrite length_append; simpl; lia).
  replace (text +:+ String ">"%char rest)
    with ((text +:+ String ">"%char "") +:+ rest)
    by (by rewrite append_assoc).
  rewrite drop_append_length.
  unfold mbind, outcome_bind.
  destruct (rtrim_find_last blanks text) as [Hr _].
  destruct (pos_succ (find_last_not_of text blanks)) as [n|] eqn:Hn;
    [|by destruct (find_last_not_of text blanks)].
  rewrite substr_prefix, Hr.
  pose proof (ltrim_find_first blanks rest) as Hl.
  destruct (find_first_not_of rest blanks) as [j|]; [|reflexivity].
  destruct Hl as (Hl & _ & Hj).
  change (Some j) with (at_pos j).
  rewrite (substr_suffix rest j) by lia. by rewrite Hl.
Qed.

(** C5: on an argument without [>], [echo] returns code 0 with the
    argument unchanged as output and leaves the file system as it was;
    so does the dispatcher for [echo] followed by such an argument, and
    [echo just text] yields [just text]. *)
Theorem echo_without_redirect (args : string) (fs : FS) :
  mem ">"%char args = false ->
  echo args fs = Ret (mkResult 0 args, fs) /\
  execute_command ("echo " +:+ args) fs = Ret (mkResult 0 args, fs) /\
  execute_command "echo just text" fs = Ret (mkResult 0 "just text", fs).
Proof.
  intros Hgt. split_and!.
  - by apply echo_plain.
  - rewrite execute_echo. by apply echo_plain.
  - rewrite (execute_echo "just text"). by apply echo_plain.
Qed.

(** C10: when the text after the first [>] is empty or made of spaces and
    tabs only, [echo] throws [std::out_of_range] from the [substr] that
    left-trims the file name, and returns no result; [echo hi >] is such
    a line, and the exception passes through the dispatcher. *)
Theorem echo_redirect_without_target (text rest : string) (fs : FS) :
  mem ">"%char text = false ->
  all_in blanks rest = true ->
  echo (text +:+ String ">"%char rest) fs = Fault std_out_of_range /\
  ~ returns (echo (text +:+ String ">"%char rest) fs) /\
  execute_command "echo hi >" fs = Fault std_out_of_range.
Proof.
  intros Hgt Hblank.
  assert (Hthrow : forall t r, mem ">"%char t = false ->
            all_in blanks r = true ->
            echo (t +:+ String ">"%char r) fs = Fault std_out_of_range).
  { intros t r Ht Hr. rewrite (echo_redirect _ _ _ Ht).
    by rewrite (find_first_all_in _ _ Hr). }
  split_and!.
  - by apply Hthrow.
  - rewrite (Hthrow _ _ Hgt Hblank). intros [a Ha]. discriminate.
  - rewrite (execute_echo "hi >"). by apply (Hthrow "hi " "").
Qed.

(** *** cat *)

Lemma cat_spec (args : string) (fs : FS) :
  args <> "" ->
  cat args fs =
    match host_ifstream fs (c_str args) with
    | open_failed => Ret (mkResult (-1) "Failed to open file", fs)
    | size_out_of_range => Fault std_length_error
    | read_failed => Ret (mkResult (-1) "Failed to read file", fs)
    | read_ok content => Ret (mkResult 0 content, fs)
    end.
Proof. intros Hargs. unfold cat. by destruct args. Qed.

(** [cat] hands on what was read, untouched. *)
Lemma dispatch_cat_read_ok (args content : string) (fs : FS) :
  args <> "" ->
  host_ifstream fs (c_str args) = read_ok content ->
  execute_command ("cat " +:+ args) fs = Ret (mkResult 0 content, fs).
Proof.
  intros Hargs Hread. by rewrite execute_cat, (cat_spec _ _ Hargs), Hread.
Qed.

Lemma ltrim_all_in (chars s : string) :
  all_in chars s = true -> ltrim_of chars s = "".
Proof.
  induction s as [|a s IH]; simpl; [done|].
  destruct (mem a chars); simpl; [exact IH | discriminate].
Qed.

(** The redirecting [echo] through the dispatcher, for any text without
    [>] and any file name with a character that is not a blank. *)
Lemma echo_redirect_dispatch (text name : string) (fs fs1 fs2 : FS) :
  mem ">"%char text = false ->
  ltrim_of blanks name <> "" ->
  host_ofstream_open fs (c_str (ltrim_of blanks name)) = Some fs1 ->
  host_ofstream_write fs1 (c_str (ltrim_of blanks name))
    (rtrim_of blanks text) = (true, fs2) ->
  execute_command ("echo " +:+ text +:+ String ">"%char name) fs
    = Ret (mkResult 0 "", fs2).
Proof.
  intros Hgt Hname Hopen Hwrite.
  rewrite execute_echo, (echo_redirect _ _ _ Hgt).
  pose proof (ltrim_find_first blanks name) as Hl.
  destruct (find_first_not_of name blanks) as [j|];
    [|by apply ltrim_all_in in Hl].
  simpl. by rewrite Hopen, Hwrite.
Qed.

(** C3: writing with [echo] and reading back with [cat], on any file
    system where the write succeeds (the file opens and the content is
    wholly written) and the read succeeds. For every text without [>] and
    every file name with a character that is not a blank, [echo] of the
    text, [>] and the name returns code 0 after writing the text without
    its trailing blanks to the file named without its leading blanks, and
    [cat] of that file then returns code 0 with exactly that text as
    output. So [echo payload > /tmp/f.txt] followed by [cat /tmp/f.txt]
    yields [payload]. Nothing is trimmed on reading: whatever the host
    reads, [cat] returns it as it is. *)
Theorem echo_cat_round_trip :
  (forall (text name : string) (fs fs1 fs2 : FS) (content' : string),
     mem ">"%char text = false ->
     ltrim_of blanks name <> "" ->
     host_ofstream_open fs (c_str (ltrim_of blanks name)) = Some fs1 ->
     host_ofstream_write fs1 (c_str (ltrim_of blanks name))
       (rtrim_of blanks text) = (true, fs2) ->
     host_ifstream fs2 (c_str (ltrim_of blanks name)) = read_ok content' ->
     execute_command ("echo " +:+ text +:+ String ">"%char name) fs
       = Ret (mkResult 0 "", fs2) /\
     execute_command ("cat " +:+ ltrim_of blanks name) fs2
       = Ret (mkResult 0 (rtrim_of blanks text), fs2)) /\
  (forall (fs fs1 fs2 : FS) (content' : string),
     host_ofstream_open fs "/tmp/f.txt" = Some fs1 ->
     host_ofstream_write fs1 "/tmp/f.txt" "payload" = (true, fs2) ->
     host_ifstream fs2 "/tmp/f.txt" = read_ok content' ->
     execute_command "echo payload > /tmp/f.txt" fs
       = Ret (mkResult 0 "", fs2) /\
     execute_command "cat /tmp/f.txt" fs2
       = Ret (mkResult 0 "payload", fs2)) /\
  (forall (args content : string) (fs : FS),
     args <> "" ->
     host_ifstream fs (c_str args) = read_ok content ->
     execute_command ("cat " +:+ args) fs = Ret (mkResult 0 content, fs)).
Proof.
  assert (Hround : forall (text name : string) (fs fs1 fs2 : FS) content',
    mem ">"%char text = false ->
    ltrim_of blanks name <> "" ->
    host_ofstream_open fs (c_str (ltrim_of blanks name)) = Some fs1 ->
    host_ofstream_write fs1 (c_str (ltrim_of blanks name))
      (rtrim_of blanks text) = (true, fs2) ->
    host_ifstream fs2 (c_str (ltrim_of blanks name)) = read_ok content' ->
    execute_command ("echo " +:+ text +:+ String ">"%char name) fs
      = Ret (mkResult 0 "", fs2) /\
    execute_command ("cat " +:+ ltrim_of blanks name) fs2
      = Ret (mkResult 0 (rtrim_of blanks text), fs2)).
  { intros text name fs fs1 fs2 content' Hgt Hname Hopen Hwrite Hread.
    split; [by eapply echo_redirect_dispatch|].
    rewrite (dispatch_cat_read_ok _ content') by done.
    by rewrite (host_read_after_write _ _ _ _ _ _ Hopen Hwrite Hread). }
  split_and!.
  - exact Hround.
  - intros fs fs1 fs2 content' Hopen Hwrite Hread.
    by apply (Hround "payload " " /tmp/f.txt" fs fs1 fs2 content').
  - intros args content fs. apply dispatch_cat_read_ok.
Qed.

(** *** rm *)

(** C8: [rm] answers an empty argument with code -1 and the usage line,
    leaving the file system alone; it returns code 0 with empty output
    when [remove] succeeds, and code -1 with "Failed to delete file" when
    [remove] fails. So [rm /tmp/does-not-exist], on a host whose [remove]
    fails for that path, returns code -1 with a non-empty output. *)
Theorem rm_results (fs : FS) :
  rm "" fs = Ret (mkResult (-1) "Usage: rm <filename>", fs) /\
  (forall args fs',
     args <> "" -> host_remove fs (c_str args) = Some fs' ->
     rm args fs = Ret (mkResult 0 "", fs')) /\
  (forall args,
     args <> "" -> host_remove fs (c_str args) = None ->
     rm args fs = Ret (mkResult (-1) "Failed to delete file", fs)) /\
  (host_remove fs "/tmp/does-not-exist" = None ->
   exists r,
     execute_command "rm /tmp/does-not-exist" fs = Ret (r, fs) /\
     code r = -1 /\ output r <> "").
Proof.
  split_and!.
  - reflexivity.
  - intros args fs' Hargs Hrm. unfold rm.
    destruct args; [done|]. simpl empty. cbv iota. by rewrite Hrm.
  - intros args Hargs Hrm. unfold rm.
    destruct args; [done|]. simpl empty. cbv iota. by rewrite Hrm.
  - intros Hrm. rewrite (execute_rm "/tmp/does-not-exist").
    unfold rm. simpl. rewrite Hrm. eexists. split_and!; done.
Qed.

(** *** ls *)

Lemma back_nonempty (s : string) : s <> "" -> exists c, back s = Some c.
Proof.
  induction s as [|a s IH]; [done|]. intros _. simpl.
  destruct s as [|b s]; [by eexists|]. by apply IH.
Qed.

Lemma ls_entry_spec (fs : FS) (path d_name : string) :
  path <> "" ->
  ls_entry fs path d_name = Ret (spec_ls_entry fs path d_name +:+ nl).
Proof.
  intros Hpath. destruct (back_nonempty _ Hpath) as [c Hc].
  unfold ls_entry, spec_ls_entry, ls_full_path. rewrite Hc.
  destruct (Ascii.eqb_spec c "/"%char) as [->|Hne]; simpl negb; cbv iota.
  - rewrite bool_decide_eq_true_2 by done.
    by destruct (host_stat _ _) as [[|]|].
  - rewrite bool_decide_eq_false_2 by congruence.
    by destruct (host_stat _ _) as [[|]|].
Qed.

(** The [readdir] loop appends one terminated line per entry. *)
Lemma ls_loop_spec (fs : FS) (path : string) (entries : list string)
    (output : string) :
  path <> "" ->
  ls_loop fs path entries output =
    Ret (output +:+ newline_terminated (spec_ls_entries fs path entries)).
Proof.
  intros Hpath. revert output.
  induction entries as [|e rest IH]; intros output; simpl.
  - by rewrite append_empty_r.
  - rewrite (ls_entry_spec _ _ _ Hpath).
    unfold mbind, outcome_bind. rewrite IH. by rewrite !append_assoc.
Qed.

(** C9, as the code has it: [ls] lists [/] when its argument is empty and
    the C string of its argument otherwise. When the directory does not
    open it returns code -1 and "Failed to open directory: " followed by
    that path. Otherwise it returns code 0 and one line per entry, in the
    order of [readdir], each line ended by a line feed: [d <name>] or
    [- <name>] according to [stat] on the entry, the bare name when [stat]
    fails. The file system is left as it was. *)
Theorem ls_listing (args : string) (fs : FS) :
  ls_path "" = "/" /\
  (args <> "" -> ls_path args = c_str args) /\
  (host_opendir fs (ls_path args) = None ->
   ls args fs =
     Ret (mkResult (-1) ("Failed to open directory: " +:+ ls_path args),
          fs)) /\
  (forall entries,
     host_opendir fs (ls_path args) = Some entries ->
     ls args fs =
       Ret (mkResult 0
              (newline_terminated
                 (spec_ls_entries fs (ls_path args) entries)), fs)).
Proof.
  split_and!.
  - reflexivity.
  - by destruct args.
  - intros Hdir. unfold ls. by rewrite Hdir.
  - intros entries Hdir. unfold ls. rewrite Hdir.
    assert (Hpath : ls_path args <> "").
    { intros He. rewrite He, host_opendir_empty in Hdir. discriminate. }
    by rewrite (ls_loop_spec _ _ _ _ Hpath).
Qed.

End Handlers.

Lemma echo_without_redirect_witness :
  echo "just text" MemFS.sample
    = Ret (mkResult 0 "just text", MemFS.sample) /\
  execute_command ("echo " +:+ "just text") MemFS.sample
    = Ret (mkResult 0 "just text", MemFS.sample) /\
  execute_command "echo just text" MemFS.sample
    = Ret (mkResult 0 "just text", MemFS.sample).
Proof.
  apply (echo_without_redirect "just text" MemFS.sample). reflexivity.
Defined.

Lemma echo_redirect_without_target_witness :
  echo ("hi " +:+ String ">"%char " ") MemFS.sample
    = Fault std_out_of_range /\
  ~ returns (echo ("hi " +:+ String ">"%char " ") MemFS.sample) /\
  execute_command "echo hi >" MemFS.sample = Fault std_out_of_range.
Proof.
  apply (echo_redirect_without_target "hi " " " MemFS.sample); reflexivity.
Defined.

Lemma echo_cat_round_trip_witness :
  let fs1 :=
    default MemFS.sample (host_ofstream_open MemFS.sample "/tmp/f.txt") in
  let fs2 := (host_ofstream_write fs1 "/tmp/f.txt" "payload").2 in
  (execute_command "echo payload > /tmp/f.txt" MemFS.sample
     = Ret (mkResult 0 "", fs2) /\
   execute_command "cat /tmp/f.txt" fs2 = Ret (mkResult 0 "payload", fs2))
  /\
  (execute_command ("echo " +:+ "  two words" +:+ String ">"%char "/tmp/g ")
     MemFS.sample
     = Ret (mkResult 0 "",
            (host_ofstream_write
               (default MemFS.sample
                  (host_ofstream_open MemFS.sample "/tmp/g "))
               "/tmp/g " "  two words").2) /\
   execute_command ("cat " +:+ ltrim_of blanks "/tmp/g ")
     (host_ofstream_write
        (default MemFS.sample (host_ofstream_open MemFS.sample "/tmp/g "))
        "/tmp/g " "  two words").2
     = Ret (mkResult 0 (rtrim_of blanks "  two words"),
            (host_ofstream_write
               (default MemFS.sample
                  (host_ofstream_open MemFS.sample "/tmp/g "))
               "/tmp/g " "  two words").2)).
Proof.
  intros fs1 fs2.
  destruct (echo_cat_round_trip (FS := MemFS.t)) as (Hround & Hpayload & _).
  split.
  - apply (Hpayload MemFS.sample fs1 fs2 "payload"); reflexivity.
  - apply (Hround "  two words" "/tmp/g " MemFS.sample
             (default MemFS.sample
                (host_ofstream_open MemFS.sample "/tmp/g "))
             _ "  two words");
      [reflexivity | discriminate | reflexivity | reflexivity | reflexivity].
Defined.

(** On the host in memory, [remove] fails where no node is. *)
Lemma MemFS_remove_missing (fs : MemFS.t) (path : string) :
  fs !! path = None -> host_remove fs path = None.
Proof. intros Hp. simpl. unfold MemFS.remove. by rewrite Hp. Qed.

Lemma rm_results_witness :
  rm "" MemFS.sample
    = Ret (mkResult (-1) "Usage: rm <filename>", MemFS.sample) /\
  rm "/tmp/a.txt" MemFS.sample
    = Ret (mkResult 0 "", MemFS.unlink MemFS.sample "/tmp/a.txt") /\
  rm "/tmp/b.txt" MemFS.sample
    = Ret (mkResult (-1) "Failed to delete file", MemFS.sample) /\
  exists r,
    execute_command "rm /tmp/does-not-exist" MemFS.sample
      = Ret (r, MemFS.sample) /\
    code r = -1 /\ output r <> "".
Proof.
  destruct (rm_results MemFS.sample) as (Husage & Hok & Hfail & Hmissing).
  split_and!.
  - exact Husage.
  - apply Hok; [discriminate | reflexivity].
  - apply Hfail; [discriminate | reflexivity].
  - apply Hmissing. apply MemFS_remove_missing. reflexivity.
Defined.

(** C9, as the specification words it, fails: the one entry of [/tmp] is
    listed as its line followed by a line feed, where joining the entries
    with line feeds ends without one. *)
Lemma ls_output_not_joined :
  host_opendir MemFS.sample (ls_path "/tmp") = Some ["a.txt"] /\
  ls "/tmp" MemFS.sample
    = Ret (mkResult 0 ("- a.txt" +:+ nl), MemFS.sample) /\
  spec_newline_joined (spec_ls_entries MemFS.sample "/tmp" ["a.txt"])
    = "- a.txt" /\
  ls "/tmp" MemFS.sample
    <> Ret (mkResult 0
              (spec_newline_joined
                 (spec_ls_entries MemFS.sample "/tmp" ["a.txt"])),
            MemFS.sample).
Proof.
  split_and!; [reflexivity | reflexivity | reflexivity |].
  intros Heq.
  apply (f_equal (fmap (fun x => String.length (output x.1)))) in Heq.
  vm_compute in Heq. discriminate.
Qed.

Example ls_mixed_listing :
  ls "/d" MemFS.dangling
    = Ret (mkResult 0 ("d sub" +:+ nl +:+ "- f" +:+ nl +:+ "ghost" +:+ nl),
           MemFS.dangling).
Proof. reflexivity. Qed.

Lemma ls_listing_witness :
  ls "/tmp" MemFS.sample
    = Ret (mkResult 0
             (newline_terminated
                (spec_ls_entries MemFS.sample (ls_path "/tmp") ["a.txt"])),
           MemFS.sample) /\
  ls "/nowhere" MemFS.sample
    = Ret (mkResult (-1) ("Failed to open directory: " +:+ ls_path "/nowhere"),
           MemFS.sample).
Proof.
  split.
  - apply (ls_listing "/tmp" MemFS.sample). reflexivity.
  - apply (ls_listing "/nowhere" MemFS.sample). reflexivity.
Defined.

(** ** The exported entry points *)

Section Boundary.

Context {FS : Type} `{!Host FS}.

Lemma ls_code (args : string) (fs fs' : FS) (r : CommandResult) :
  ls args fs = Ret (r, fs') -> code r = 0 \/ code r = -1.
Proof.
  unfold ls. destruct (host_opendir _ _); [|intros [= <- _]; by right].
  destruct (ls_loop _ _ _ _); simpl; [|discriminate].
  intros [= <- _]. by left.
Qed.

Lemma cat_code (args : string) (fs fs' : FS) (r : CommandResult) :
  cat args fs = Ret (r, fs') -> code r = 0 \/ code r = -1.
Proof.
  unfold cat. destruct (empty args); [intros [= <- _]; by right|].
  destruct (host_ifstream _ _); intros [= <- _]; auto.
Qed.

Lemma echo_code (args : string) (fs fs' : FS) (r : CommandResult) :
  echo args fs = Ret (r, fs') -> code r = 0 \/ code r = -1.
Proof.
  unfold echo. destruct (find args ">"%char); [|intros [= <- _]; by left].
  repeat (match goal with
          | |- context [substr ?s ?p ?n] => destruct (substr s p n); simpl
          end; [|discriminate]).
  destruct (host_ofstream_open _ _); intros [= <- _]; auto.
Qed.

Lemma rm_code (args : string) (fs fs' : FS) (r : CommandResult) :
  rm args fs = Ret (r, fs') -> code r = 0 \/ code r = -1.
Proof.
  unfold rm. destruct (empty args); [intros [= <- _]; by right|].
  destruct (host_remove _ _); intros [= <- _]; auto.
Qed.

Lemma execute_command_code (command : string) (fs fs' : FS)
    (r : CommandResult) :
  execute_command command fs = Ret (r, fs') -> code r = 0 \/ code r = -1.
Proof.
  destruct (split_command_returns command) as (cmd & args & Hsplit).
  rewrite (execute_command_split _ _ _ _ Hsplit), registry_lookup.
  repeat case_decide;
    eauto using ls_code, cat_code, echo_code, rm_code.
  intros [= <- _]. by right.
Qed.

(** [execute], one case per path through it. *)
Lemma execute_rejects (command : option string) (k : kernel FS) :
  valid_command command = None ->
  execute command k = Ret (-1, set_status k (k_fs k) (-1)).
Proof. intros Hv. unfold execute. by rewrite Hv. Qed.

Lemma execute_accepts (command : option string) (cmd : string)
    (k : kernel FS) :
  valid_command command = Some cmd ->
  execute command k =
    match execute_command cmd (k_fs k) with
    | Ret (r, fs') => Ret (code r, set_status k fs' (code r))
    | Fault f => Fault f
    end.
Proof.
  intros Hv. unfold execute. rewrite Hv.
  by destruct (execute_command _ _) as [[r fs']|].
Qed.

(** [execute_with_output] with a non-null [out_len], likewise. *)
Lemma execute_with_output_rejects (command : option string)
    (k : kernel FS) :
  valid_command command = None ->
  execute_with_output command true k =
    Ret (mkCaptured None (Some 0), set_status k (k_fs k) (-1)).
Proof. intros Hv. unfold execute_with_output. by rewrite Hv. Qed.

Lemma execute_with_output_accepts (command : option string) (cmd : string)
    (k : kernel FS) (r : CommandResult) (fs' : FS) :
  valid_command command = Some cmd ->
  execute_command cmd (k_fs k) = Ret (r, fs') ->
  execute_with_output command true k =
    if empty (output r) then
      Ret (mkCaptured None (Some 0), set_status k fs' (code r))
    else if host_malloc (size (output r) + 1) then
      Ret (mkCaptured (Some (output r +:+ String "000"%char ""))
             (Some (to_int (size (output r)))),
           mkKernel fs' (code r)
             ((output r +:+ String "000"%char "") :: k_buffers k))
    else Ret (mkCaptured None (Some 0), set_status k fs' (code r)).
Proof.
  intros Hv Hr. unfold execute_with_output. rewrite Hv. simpl.
  rewrite Hr. simpl. destruct (empty (output r)); [done|].
  by destruct (host_malloc _).
Qed.

(** With a null [out_len] the call returns at once: no dispatch, no
    change of state. *)
Lemma execute_with_output_null_out_len (command : option string)
    (k : kernel FS) :
  execute_with_output command false k = Ret (mkCaptured None None, k).
Proof. reflexivity. Qed.

(** C2: [last_status] is 0 at start. A call of [execute], or of
    [execute_with_output] with a non-null [out_len], that rejects a null or
    empty command returns with [last_status] at -1; one that dispatches a
    command returns, whenever the dispatch returns a result, with
    [last_status] at the code of that result, whatever the handler and
    whatever [malloc] does. In particular [execute("")] and then
    [execute("echo hi")] leave [last_status] at 0. *)
Theorem last_status_tracks_latest_call (k : kernel FS) :
  (forall fs : FS, get_last_status (boot fs) = 0) /\
  (valid_command None = None /\
   valid_command (Some "") = None) /\
  (forall command,
     valid_command command = None ->
     (exists k', execute command k = Ret (-1, k') /\
                 get_last_status k' = -1) /\
     (exists c k', execute_with_output command true k = Ret (c, k') /\
                   get_last_status k' = -1)) /\
  (forall command cmd r fs',
     valid_command command = Some cmd ->
     execute_command cmd (k_fs k) = Ret (r, fs') ->
     (exists k', execute command k = Ret (code r, k') /\
                 get_last_status k' = code r) /\
     (exists c k', execute_with_output command true k = Ret (c, k') /\
                   get_last_status k' = code r)) /\
  (exists k1 k2,
     execute (Some "") k = Ret (-1, k1) /\
     execute (Some "echo hi") k1 = Ret (0, k2) /\
     get_last_status k1 = -1 /\ get_last_status k2 = 0).
Proof.
  split_and!.
  - reflexivity.
  - reflexivity.
  - reflexivity.
  - intros command Hv. split.
    + eexists. by rewrite (execute_rejects _ _ Hv).
    + eexists _, _. by rewrite (execute_with_output_rejects _ _ Hv).
  - intros command cmd r fs' Hv Hr. split.
    + eexists. by rewrite (execute_accepts _ _ _ Hv), Hr.
    + rewrite (execute_with_output_accepts _ _ _ _ _ Hv Hr).
      destruct (empty (output r)); [by eexists _, _|].
      destruct (host_malloc _); by eexists _, _.
  - eexists _, _. split_and!.
    + by apply execute_rejects.
    + rewrite (execute_accepts _ "echo hi") by reflexivity.
      simpl k_fs. rewrite (execute_echo "hi").
      rewrite echo_plain by reflexivity. reflexivity.
    + reflexivity.
    + reflexivity.
Qed.

Lemma get_append_length (s t : string) (c : ascii) :
  String.get (String.length s) (s +:+ String c t) = Some c.
Proof. induction s as [|a s IH]; simpl; [reflexivity | exact IH]. Qed.

Lemma to_int_small (z : Z) : 0 <= z <= INT_MAX -> to_int z = z.
Proof.
  unfold INT_MAX, to_int. intros Hz. rewrite Z.mod_small; lia.
Qed.

(** C6: let [execute_with_output] be called with a non-null [out_len] on
    an accepted command whose dispatch returns [r]. When the output of [r]
    is not empty, [malloc] succeeds and the length fits an [int], the call
    returns a buffer one byte longer than the output, whose first bytes
    are the output and whose last byte is NUL, with [*out_len] the length
    of the output; the buffer is the one new allocation. When the output
    is empty, the call returns a null pointer with [*out_len] at 0 and
    allocates nothing. Either way [last_status] is the code of [r].
    (The length is stored through [static_cast<int>]; it fits whenever
    the output and its copy are both live in a 32-bit address space.) *)
Theorem captured_output (command : option string) (cmd : string)
    (k : kernel FS) (r : CommandResult) (fs' : FS) :
  valid_command command = Some cmd ->
  execute_command cmd (k_fs k) = Ret (r, fs') ->
  (output r <> "" ->
   host_malloc (size (output r) + 1) = true ->
   size (output r) <= INT_MAX ->
   exists buffer k',
     execute_with_output command true k
       = Ret (mkCaptured (Some buffer) (Some (size (output r))), k') /\
     String.length buffer = S (String.length (output r)) /\
     take (String.length (output r)) buffer = output r /\
     String.get (String.length (output r)) buffer = Some "000"%char /\
     k_buffers k' = buffer :: k_buffers k /\
     get_last_status k' = code r) /\
  (output r = "" ->
   exists k',
     execute_with_output command true k
       = Ret (mkCaptured None (Some 0), k') /\
     k_buffers k' = k_buffers k /\
     get_last_status k' = code r).
Proof.
  intros Hv Hr.
  rewrite (execute_with_output_accepts _ _ _ _ _ Hv Hr). split.
  - intros Hout Hmalloc Hfit.
    destruct (output r) as [|a o] eqn:Ho; [done|]. simpl empty. cbv iota.
    rewrite Hmalloc, to_int_small by (unfold size in *; lia).
    eexists _, _. split_and!; try reflexivity.
    + rewrite length_append. simpl. lia.
    + apply take_append_length.
    + apply get_append_length.
  - intros ->. by eexists.
Qed.

(** C7: a result returned by the dispatcher has code 0 or -1; [execute]
    returns 0 or -1; and in every state reached from start by the exported
    calls, [last_status] is 0 or -1. *)
Theorem status_codes_binary :
  (forall command (fs fs' : FS) r,
     execute_command command fs = Ret (r, fs') ->
     code r = 0 \/ code r = -1) /\
  (forall command (k k' : kernel FS) v,
     execute command k = Ret (v, k') -> v = 0 \/ v = -1) /\
  (forall k : kernel FS,
     reachable k -> get_last_status k = 0 \/ get_last_status k = -1).
Proof.
  assert (Hexec : forall command (k k' : kernel FS) v,
            execute command k = Ret (v, k') ->
            (v = 0 \/ v = -1) /\ last_status k' = v).
  { intros command k k' v. unfold execute.
    destruct (valid_command command) as [cmd|]; [|intros [= <- <-]; auto].
    destruct (execute_command _ _) as [[r fs']|] eqn:Hr; simpl;
      [|discriminate].
    intros [= <- <-]. split; [|reflexivity].
    by eapply execute_command_code. }
  split_and!.
  - intros command fs fs' r. apply execute_command_code.
  - intros command k k' v Hv. by apply (Hexec _ _ _ _ Hv).
  - intros k Hk. unfold get_last_status.
    induction Hk as [fs | c k k' Hk IH Hstep]; [by left|].
    destruct c as [command | command out_len | fs buffers]; simpl in Hstep.
    + destruct (execute command k) as [[v k'']|] eqn:He; simpl in Hstep;
        [|discriminate].
      injection Hstep as ->. destruct (Hexec _ _ _ _ He) as [Hv ->]. exact Hv.
    + unfold execute_with_output in Hstep.
      destruct out_len; simpl in Hstep; [|by injection Hstep as <-].
      destruct (valid_command command) as [cmd|];
        [|injection Hstep as <-; by right].
      destruct (execute_command _ _) as [[r fs']|] eqn:Hr; simpl in Hstep;
        [|discriminate].
      apply execute_command_code in Hr.
      destruct (empty (output r)); [by injection Hstep as <-|].
      destruct (host_malloc _); by injection Hstep as <-.
    + by injection Hstep as <-.
Qed.

End Boundary.

Lemma last_status_tracks_latest_call_witness :
  ((exists k', execute (Some "rm /nothing") (boot MemFS.sample)
                 = Ret (code (mkResult (-1) "Failed to delete file"), k') /\
               get_last_status k' = -1) /\
   (exists c k', execute_with_output (Some "rm /nothing") true
                   (boot MemFS.sample) = Ret (c, k') /\
                 get_last_status k' = -1)) /\
  ((exists k', execute None (boot MemFS.sample) = Ret (-1, k') /\
               get_last_status k' = -1) /\
   (exists c k', execute_with_output None true (boot MemFS.sample)
                   = Ret (c, k') /\
                 get_last_status k' = -1)).
Proof.
  destruct (last_status_tracks_latest_call (boot MemFS.sample))
    as (_ & _ & Hreject & Haccept & _).
  split.
  - apply (Haccept (Some "rm /nothing") "rm /nothing"
             (mkResult (-1) "Failed to delete file") MemFS.sample);
      reflexivity.
  - apply (Hreject None). reflexivity.
Defined.

Lemma captured_output_witness :
  exists buffer k',
    execute_with_output (Some "cat /tmp/a.txt") true (boot MemFS.sample)
      = Ret (mkCaptured (Some buffer) (Some 5), k') /\
    String.length buffer = 6%nat /\
    take 5 buffer = "hello" /\
    String.get 5 buffer = Some "000"%char /\
    k_buffers k' = [buffer] /\
    get_last_status k' = 0.
Proof.
  destruct (captured_output (Some "cat /tmp/a.txt") "cat /tmp/a.txt"
              (boot MemFS.sample) (mkResult 0 "hello") MemFS.sample)
    as [Hfull _]; [reflexivity | reflexivity |].
  apply Hfull.
  - discriminate.
  - reflexivity.
  - vm_compute. discriminate.
Defined.

Lemma status_codes_binary_witness :
  let k := mkKernel MemFS.sample (-1) [] in
  (code (mkResult (-1) "Failed to delete file") = 0 \/
   code (mkResult (-1) "Failed to delete file") = -1) /\
  (get_last_status k = 0 \/ get_last_status k = -1).
Proof.
  intros k.
  destruct (status_codes_binary (FS := MemFS.t)) as (Hcode & _ & Hstatus).
  split.
  - apply (Hcode "rm /nothing" MemFS.sample MemFS.sample). reflexivity.
  - apply Hstatus.
    apply (reachable_step (Execute (Some "rm /nothing")) (boot MemFS.sample));
      [apply reachable_boot | reflexivity].
Defined.

(** ** More on the handlers and the dispatcher *)

Lemma until_of_find (s : string) (c : ascii) :
  until_of (String c "") s =
    match find s c with
    | Some p => take p s
    | None => s
    end.
Proof.
  induction s as [|a s IH]; simpl; [reflexivity|].
  destruct (Ascii.eqb a c); simpl; [reflexivity|].
  rewrite IH. by destruct (find s c).
Qed.

Lemma split_command_verb (line cmd args : string) :
  split_command line = Ret (cmd, args) ->
  cmd = until_of " " line.
Proof.
  change " " with (String " "%char ""). rewrite until_of_find.
  destruct (find line " "%char) as [p|] eqn:Hp.
  - rewrite (split_command_space _ _ Hp). congruence.
  - rewrite (split_command_no_space _ Hp). congruence.
Qed.

Lemma rtrim_decompose (chars s : string) :
  (exists pad,
     s = rtrim_of chars s +:+ pad /\ all_in chars pad = true) /\
  (rtrim_of chars s = "" \/
   exists c, back (rtrim_of chars s) = Some c /\ mem c chars = false).
Proof.
  induction s as [|a s [(pad & Hs & Hpad) Hback]]; simpl.
  - split; [by exists "" | by left].
  - destruct (rtrim_of chars s) as [|b r] eqn:Hr.
    + simpl in Hs. subst pad.
      destruct (mem a chars) eqn:Ha.
      * split; [|by left]. exists (String a s). simpl. by rewrite Ha.
      * split; [by exists s|]. right. by exists a.
    + split; [exists pad; simpl in *; by rewrite <- Hs|].
      right. destruct Hback as [|Hback]; [done|]. exact Hback.
Qed.

Lemma ltrim_decompose (chars s : string) :
  (exists lead,
     s = lead +:+ ltrim_of chars s /\ all_in chars lead = true) /\
  (ltrim_of chars s = "" \/
   exists c tl, ltrim_of chars s = String c tl /\ mem c chars = false).
Proof.
  induction s as [|a s [(lead & Hs & Hlead) Hhead]]; simpl.
  - split; [by exists "" | by left].
  - destruct (mem a chars) eqn:Ha.
    + split; [|exact Hhead]. exists (String a lead). simpl.
      by rewrite <- Hs, Ha.
    + split; [by exists ""|]. right. by exists a, s.
Qed.


Section MoreHandlers.

Context {FS : Type} `{!Host FS}.

(** X2 [echo] with a redirection: the text before the first [>] is written
    without its trailing blanks and nothing else removed, to the file
    named by the text after that [>] without its leading blanks and
    nothing else removed (later [>] characters and trailing blanks stay in
    the name). A file that does not open gives code -1 and leaves the file
    system alone; once it opens the result is code 0 with empty output,
    whether or not the write goes through. *)
Theorem echo_redirect_writes (text rest : string) (fs : FS) :
  mem ">"%char text = false ->
  all_in blanks rest = false ->
  exists content pad lead filename,
    text = content +:+ pad /\ all_in blanks pad = true /\
    (content = "" \/
     exists c, back content = Some c /\ mem c blanks = false) /\
    rest = lead +:+ filename /\ all_in blanks lead = true /\
    (exists c tl, filename = String c tl /\ mem c blanks = false) /\
    echo (text +:+ String ">"%char rest) fs =
      match host_ofstream_open fs (c_str filename) with
      | None => Ret (mkResult (-1) "Failed to open file for writing", fs)
      | Some fs1 =>
          Ret (mkResult 0 "",
               (host_ofstream_write fs1 (c_str filename) content).2)
      end.
Proof.
  intros Hgt Hrest.
  destruct (rtrim_decompose blanks text) as [(pad & Htext & Hpad) Hback].
  destruct (ltrim_decompose blanks rest) as [(lead & Hlead & Hl) Hhead].
  exists (rtrim_of blanks text), pad, lead, (ltrim_of blanks rest).
  split_and!; try done.
  - destruct Hhead as [He|Hhead]; [|exact Hhead].
    rewrite He, append_empty_r in Hlead. congruence.
  - rewrite (echo_redirect _ _ _ Hgt).
    destruct (find_first_not_of rest blanks) as [j|] eqn:Hj; [done|].
    pose proof (ltrim_find_first blanks rest) as Hall.
    rewrite Hj in Hall. congruence.
Qed.

End MoreHandlers.

Lemma echo_redirect_writes_witness :
  exists content pad lead filename,
    " a b  " = content +:+ pad /\ all_in blanks pad = true /\
    (content = "" \/
     exists c, back content = Some c /\ mem c blanks = false) /\
    "  f > g " = lead +:+ filename /\ all_in blanks lead = true /\
    (exists c tl, filename = String c tl /\ mem c blanks = false) /\
    echo (" a b  " +:+ String ">"%char "  f > g ") MemFS.sample =
      match host_ofstream_open MemFS.sample (c_str filename) with
      | None => Ret (mkResult (-1) "Failed to open file for writing",
                     MemFS.sample)
      | Some fs1 =>
          Ret (mkResult 0 "",
               (host_ofstream_write fs1 (c_str filename) content).2)
      end.
Proof.
  apply (echo_redirect_writes " a b  " "  f > g " MemFS.sample);
    reflexivity.
Defined.

Section MoreDispatcher.

Context {FS : Type} `{!Host FS}.





(** What a handler returns with code -1 has a message, and the file
    system it started from. *)
Lemma ls_failure (args : string) (fs fs' : FS) (r : CommandResult) :
  ls args fs = Ret (r, fs') ->
  fs' = fs /\ (code r = -1 -> output r <> "" /\ output r <> "Unknown command").
Proof.
  unfold ls. destruct (host_opendir _ _).
  - destruct (ls_loop _ _ _ _); simpl; [|discriminate].
    intros [= <- <-]. by split.
  - intros [= <- <-]. split; [done|]. intros _. by split.
Qed.

Lemma cat_failure (args : string) (fs fs' : FS) (r : CommandResult) :
  cat args fs = Ret (r, fs') ->
  fs' = fs /\ (code r = -1 -> output r <> "" /\ output r <> "Unknown command").
Proof.
  unfold cat. destruct (empty args); [intros [= <- <-]; by split|].
  destruct (host_ifstream _ _); intros [= <- <-]; by split.
Qed.

Lemma echo_failure (args : string) (fs fs' : FS) (r : CommandResult) :
  echo args fs = Ret (r, fs') ->
  (code r = -1 -> fs' = fs /\ output r <> "" /\ output r <> "Unknown command")
  /\ (mem ">"%char args = false -> fs' = fs).
Proof.
  unfold echo. destruct (find args ">"%char) as [p|] eqn:Hp.
  - assert (Hmem : mem ">"%char args <> false).
    { intros Hm. apply find_None_mem in Hm. rewrite Hp in Hm.
      discriminate. }
    repeat (match goal with
            | |- context [substr ?s ?q ?n] => destruct (substr s q n); simpl
            end; [|discriminate]).
    destruct (host_ofstream_open _ _); intros [= <- <-]; by split.
  - intros [= <- <-]. by split.
Qed.

Lemma rm_failure (args : string) (fs fs' : FS) (r : CommandResult) :
  rm args fs = Ret (r, fs') ->
  code r = -1 -> fs' = fs /\ output r <> "" /\ output r <> "Unknown command".
Proof.
  unfold rm. destruct (empty args); [intros [= <- <-]; by split|].
  destruct (host_remove _ _); intros [= <- <-]; by split.
Qed.

(** X3 the dispatcher answers {-1, "Unknown command"} exactly for the
    lines whose text before the first space (the whole line when it has
    no space) is not one of the four registered verbs; no handler produces
    that result. The match is exact: other letter case, a leading space
    or a tab in place of the space all miss. *)
Theorem unknown_command_iff (line : string) (fs : FS) :
  (exists fs',
     execute_command line fs = Ret (mkResult (-1) "Unknown command", fs'))
  <-> until_of " " line ∉ registered_verbs.
Proof.
  destruct (split_command_returns line) as (cmd & args & Hsplit).
  rewrite <- (split_command_verb _ _ _ Hsplit).
  rewrite (execute_command_split _ _ _ _ Hsplit).
  rewrite <- registry_miss. rewrite registry_lookup.
  repeat case_decide; (split; [intros [fs' Hr] | try discriminate]).
  - by destruct (ls_failure _ _ _ _ Hr) as [_ [_ ?]].
  - by destruct (cat_failure _ _ _ _ Hr) as [_ [_ ?]].
  - by destruct (echo_failure _ _ _ _ Hr) as [(_ & _ & ?) _].
  - by destruct (rm_failure _ _ _ _ Hr eq_refl) as (_ & _ & ?).
  - reflexivity.
  - intros _. by eexists.
Qed.



End MoreDispatcher.

Section Outcomes.

Context {FS : Type} `{!Host FS}.

(** X5 a result with code -1 always carries a message, and the command
    that produced it has left the file system as it found it. *)
Theorem failure_has_diagnostic (line : string) (fs fs' : FS)
    (r : CommandResult) :
  execute_command line fs = Ret (r, fs') ->
  code r = -1 ->
  output r <> "" /\ fs' = fs.
Proof.
  destruct (split_command_returns line) as (cmd & args & Hsplit).
  rewrite (execute_command_split _ _ _ _ Hsplit), registry_lookup.
  repeat case_decide; intros Hr Hcode.
  - destruct (ls_failure _ _ _ _ Hr) as [-> Hout].
    by destruct (Hout Hcode).
  - destruct (cat_failure _ _ _ _ Hr) as [-> Hout].
    by destruct (Hout Hcode).
  - destruct (echo_failure _ _ _ _ Hr) as [Hout _].
    by destruct (Hout Hcode) as (-> & ? & _).
  - by destruct (rm_failure _ _ _ _ Hr Hcode) as (-> & ? & _).
  - injection Hr as <- <-. by split.
Qed.

(** X6 only [rm] and [echo] with a [>] can change the file system: any
    other line leaves it as it was, so running the line again returns the
    same result. *)
Theorem read_only_commands_repeat (line cmd args : string) (fs fs' : FS)
    (r : CommandResult) :
  split_command line = Ret (cmd, args) ->
  cmd <> "rm" ->
  (cmd = "echo" -> mem ">"%char args = false) ->
  execute_command line fs = Ret (r, fs') ->
  fs' = fs /\ execute_command line fs' = Ret (r, fs').
Proof.
  intros Hsplit Hrm Hecho Hr.
  assert (Hfs : fs' = fs); [|by subst fs'].
  rewrite (execute_command_split _ _ _ _ Hsplit), registry_lookup in Hr.
  repeat case_decide.
  - by destruct (ls_failure _ _ _ _ Hr).
  - by destruct (cat_failure _ _ _ _ Hr).
  - destruct (echo_failure _ _ _ _ Hr) as [_ Hplain]. by apply Hplain, Hecho.
  - done.
  - by injection Hr as _ <-.
Qed.

End Outcomes.


Lemma failure_has_diagnostic_witness :
  output (mkResult (-1) "Failed to open directory: /none") <> "" /\
  MemFS.sample = MemFS.sample.
Proof.
  apply (failure_has_diagnostic "ls /none" MemFS.sample MemFS.sample
           (mkResult (-1) "Failed to open directory: /none"));
    reflexivity.
Defined.

Lemma read_only_commands_repeat_witness :
  MemFS.sample = MemFS.sample /\
  execute_command "cat /tmp/a.txt" MemFS.sample
    = Ret (mkResult 0 "hello", MemFS.sample).
Proof.
  apply (read_only_commands_repeat "cat /tmp/a.txt" "cat" "/tmp/a.txt"
           MemFS.sample MemFS.sample (mkResult 0 "hello"));
    [reflexivity | discriminate | discriminate | reflexivity].
Defined.

(** ** More on the exported entry points *)

Lemma mem_append (c : ascii) (s t : string) :
  mem c (s +:+ t) = mem c s || mem c t.
Proof.
  induction s as [|a s IH]; simpl; [reflexivity|].
  rewrite IH. by destruct (Ascii.eqb c a).
Qed.

Lemma mem_cons (c a : ascii) (s : string) :
  mem c (String a s) = Ascii.eqb c a || mem c s.
Proof. reflexivity. Qed.

Lemma c_str_cons (a : ascii) (s : string) :
  c_str (String a s) =
    if Ascii.eqb a "000"%char then "" else String a (c_str s).
Proof. reflexivity. Qed.

Lemma c_str_no_nul (s : string) : mem "000"%char (c_str s) = false.
Proof.
  induction s as [|a s IH]; [reflexivity|]. rewrite c_str_cons.
  destruct (Ascii.eqb a "000"%char) eqn:Ha; [reflexivity|].
  by rewrite mem_cons, Ascii.eqb_sym, Ha, IH.
Qed.

Lemma c_str_id (s : string) : mem "000"%char s = false -> c_str s = s.
Proof.
  induction s as [|a s IH]; [reflexivity|].
  rewrite mem_cons, c_str_cons, (Ascii.eqb_sym "000"%char a).
  destruct (Ascii.eqb a "000"%char); [discriminate|].
  intros Hs. by rewrite IH.
Qed.

Lemma c_str_idem (s : string) : c_str (c_str s) = c_str s.
Proof. apply c_str_id, c_str_no_nul. Qed.

Lemma c_str_append (s t : string) :
  mem "000"%char s = false -> c_str (s +:+ t) = s +:+ c_str t.
Proof.
  induction s as [|a s IH]; [reflexivity|].
  change (String a s +:+ t) with (String a (s +:+ t)).
  rewrite mem_cons, c_str_cons, (Ascii.eqb_sym "000"%char a).
  destruct (Ascii.eqb a "000"%char); [discriminate|].
  intros Hs. rewrite IH by done. reflexivity.
Qed.

Lemma newline_terminated_no_nul (entries : list string) :
  mem "000"%char (newline_terminated (map c_str entries)) = false.
Proof.
  induction entries as [|e rest IH]; [reflexivity|].
  cbn [map newline_terminated].
  rewrite mem_append, c_str_no_nul. exact IH.
Qed.

Section MoreBoundary.

Context {FS : Type} `{!Host FS}.


(** X8 the two ways of running a command agree: on the same command and
    state, [execute] and [execute_with_output] (with a non-null
    [out_len]) leave the same file system and the same [last_status],
    which is the value [execute] returns; and one throws when the other
    does. *)
Theorem execute_agrees_with_capture (command : option string)
    (k : kernel FS) :
  match execute command k, execute_with_output command true k with
  | Ret (v, k1), Ret (_, k2) =>
      k_fs k1 = k_fs k2 /\ last_status k1 = last_status k2 /\
      v = last_status k2
  | Fault f1, Fault f2 => f1 = f2
  | _, _ => False
  end.
Proof.
  unfold execute, execute_with_output. simpl.
  destruct (valid_command command); [|done].
  destruct (execute_command _ _) as [[r fs']|]; simpl; [|done].
  destruct (empty (output r)); [done|]. by destruct (host_malloc _).
Qed.

Lemma reachable_elsewhere (k k' : kernel FS) :
  last_status k' = last_status k -> reachable k -> reachable k'.
Proof.
  intros Hs Hk.
  apply (reachable_step (Elsewhere (k_fs k') (k_buffers k')) k); [done|].
  simpl. rewrite <- Hs. by destruct k'.
Qed.

(** X9 the pass-through operations stay clear of the interpreter's
    status: none of the five changes [last_status], so each keeps a
    session's state within the reachable ones; [file_exists], [read_file]
    and [list_directory] leave the file system alone, and [write_file] and
    [delete_file] allocate nothing. *)
Theorem passthrough_frame (path content : string) (out_len : bool)
    (k : kernel FS) :
  let kw := (write_file path content k).2 in
  let kr := (read_file path out_len k).2 in
  let kd := (delete_file path k).2 in
  let kl := (list_directory path out_len k).2 in
  (get_last_status kw = get_last_status k /\
   get_last_status kr = get_last_status k /\
   get_last_status kd = get_last_status k /\
   get_last_status kl = get_last_status k) /\
  (k_fs kr = k_fs k /\ k_fs kl = k_fs k) /\
  (k_buffers kw = k_buffers k /\ k_buffers kd = k_buffers k) /\
  (reachable k ->
   reachable kw /\ reachable kr /\ reachable kd /\ reachable kl).
Proof.
  intros kw kr kd kl.
  assert (Hw : last_status kw = last_status k /\ k_buffers kw = k_buffers k).
  { subst kw. unfold write_file. by destruct (host_ofstream_open _ _). }
  assert (Hr : last_status kr = last_status k /\ k_fs kr = k_fs k).
  { subst kr. unfold read_file. destruct out_len; simpl; [|done].
    destruct (host_ifstream _ _); try done. by destruct (host_malloc _). }
  assert (Hd : last_status kd = last_status k /\ k_buffers kd = k_buffers k).
  { subst kd. unfold delete_file. by destruct (host_remove _ _). }
  assert (Hl : last_status kl = last_status k /\ k_fs kl = k_fs k).
  { subst kl. unfold list_directory. destruct out_len; simpl; [|done].
    destruct (host_opendir _ _); [|done]. by destruct (host_malloc _). }
  unfold get_last_status. destruct Hw, Hr, Hd, Hl.
  split_and!; try done.
  intros Hk. split_and!; by eapply reachable_elsewhere.
Qed.

End MoreBoundary.


Lemma passthrough_frame_witness :
  reachable (write_file "/tmp/w" "x" (boot MemFS.sample)).2 /\
  reachable (read_file "/tmp/w" true (boot MemFS.sample)).2 /\
  reachable (delete_file "/tmp/w" (boot MemFS.sample)).2 /\
  reachable (list_directory "/tmp/w" true (boot MemFS.sample)).2.
Proof.
  apply (passthrough_frame "/tmp/w" "x" true (boot MemFS.sample)).
  apply reachable_boot.
Defined.

(** ** The pass-through operations *)

Section MorePassthrough.

Context {FS : Type} `{!Host FS}.

(** X10 [write_file] then [read_file]: when the file opens, the write goes
    through and the file reads again, [read_file] hands back the C string
    of the content that was given (what follows a NUL byte is not
    written), closed by a NUL, with [*out_len] its length. *)
Theorem write_file_read_file (path content : string) (k : kernel FS)
    (fs1 fs2 : FS) (content' : string) :
  host_ofstream_open (k_fs k) (c_str path) = Some fs1 ->
  host_ofstream_write fs1 (c_str path) (c_str content) = (true, fs2) ->
  host_ifstream fs2 (c_str path) = read_ok content' ->
  host_malloc (size (c_str content) + 1) = true ->
  size (c_str content) <= INT_MAX ->
  exists k1 k2,
    write_file path content k = (0, k1) /\ k_fs k1 = fs2 /\
    read_file path true k1 =
      (mkCaptured (Some (c_str content +:+ String "000"%char ""))
         (Some (size (c_str content))), k2).
Proof.
  intros Hopen Hwrite Hread Hmalloc Hfit.
  assert (content' = c_str content) as ->
    by (by eapply host_read_after_write).
  unfold write_file. rewrite Hopen, Hwrite. eexists _, _.
  split_and!; [reflexivity | reflexivity |].
  unfold read_file. simpl. rewrite Hread, Hmalloc. simpl.
  rewrite to_int_small by (unfold size in *; lia). reflexivity.
Qed.

(** X11 a file written with [write_file] is read by the [cat] command:
    after a write that went through, when the file reads again,
    dispatching [cat] with the same path returns code 0 with the C string
    of the content that was given as its output, and leaves the file
    system as it is. *)
Theorem write_file_then_cat (path content : string) (k : kernel FS)
    (fs1 fs2 : FS) (content' : string) :
  c_str path <> "" ->
  host_ofstream_open (k_fs k) (c_str path) = Some fs1 ->
  host_ofstream_write fs1 (c_str path) (c_str content) = (true, fs2) ->
  host_ifstream fs2 (c_str path) = read_ok content' ->
  exists k1,
    write_file path content k = (0, k1) /\ k_fs k1 = fs2 /\
    execute_command ("cat " +:+ c_str path) (k_fs k1)
      = Ret (mkResult 0 (c_str content), k_fs k1).
Proof.
  intros Hpath Hopen Hwrite Hread.
  assert (content' = c_str content) as ->
    by (by eapply host_read_after_write).
  unfold write_file. rewrite Hopen, Hwrite.
  exists (mkKernel fs2 (last_status k) (k_buffers k)).
  split_and!; [reflexivity | reflexivity |]. cbn [k_fs].
  apply dispatch_cat_read_ok; [done|]. by rewrite c_str_idem.
Qed.

(** X12 a file written by [echo] with a redirection is read by
    [read_file]: it hands back the text before the [>] without its
    trailing blanks, closed by a NUL, with [*out_len] its length. *)
Theorem echo_then_read_file (text name : string) (fs fs1 fs2 : FS)
    (content' : string) (status : Z) (buffers : list string) :
  mem ">"%char text = false ->
  ltrim_of blanks name <> "" ->
  host_ofstream_open fs (c_str (ltrim_of blanks name)) = Some fs1 ->
  host_ofstream_write fs1 (c_str (ltrim_of blanks name))
    (rtrim_of blanks text) = (true, fs2) ->
  host_ifstream fs2 (c_str (ltrim_of blanks name)) = read_ok content' ->
  host_malloc (size (rtrim_of blanks text) + 1) = true ->
  size (rtrim_of blanks text) <= INT_MAX ->
  execute_command ("echo " +:+ text +:+ String ">"%char name) fs
    = Ret (mkResult 0 "", fs2) /\
  (read_file (ltrim_of blanks name) true (mkKernel fs2 status buffers)).1 =
    mkCaptured (Some (rtrim_of blanks text +:+ String "000"%char ""))
      (Some (size (rtrim_of blanks text))).
Proof.
  intros Hgt Hname Hopen Hwrite Hread Hmalloc Hfit.
  assert (content' = rtrim_of blanks text) as ->
    by (by eapply host_read_after_write).
  split.
  - by apply (echo_redirect_dispatch text name fs fs1 fs2).
  - unfold read_file. cbn [negb k_fs]. rewrite Hread, Hmalloc. cbn [negb fst].
    by rewrite to_int_small by (unfold size in *; lia).
Qed.

(** X13 [delete_file] and the [rm] command do the same to a path that is
    not empty: the same call of [remove], the same file system afterwards,
    and code 0 from one exactly when the other returns 0. *)
Theorem delete_file_agrees_with_rm (path : string) (k : kernel FS) :
  c_str path <> "" ->
  exists r,
    execute_command ("rm " +:+ c_str path) (k_fs k)
      = Ret (r, k_fs (delete_file path k).2) /\
    code r = (delete_file path k).1.
Proof.
  intros Hpath. rewrite execute_rm. unfold rm, delete_file.
  destruct (c_str path) as [|a p] eqn:Hp; [done|]. simpl empty. cbv iota.
  rewrite <- Hp, c_str_idem.
  destruct (host_remove _ _); by eexists.
Qed.

Lemma list_directory_loop_spec (entries : list string) (result : string) :
  list_directory_loop entries result =
    result +:+ newline_terminated (map c_str entries).
Proof.
  revert result. induction entries as [|e rest IH]; intros result.
  - simpl. by rewrite append_empty_r.
  - cbn [list_directory_loop map newline_terminated].
    by rewrite IH, !append_assoc.
Qed.

(** X14 [list_directory] on a directory that opens, with the allocation
    granted: the buffer holds the names in the order of [readdir], each
    followed by a line feed, and a closing NUL; [*out_len] is the length
    without the NUL. No name is cut short by [strcpy], and a directory
    without entries still gives a buffer (of length 0), not a null
    pointer. *)
Theorem list_directory_output (path : string) (k : kernel FS)
    (entries : list string) :
  host_opendir (k_fs k) (c_str path) = Some entries ->
  let text := newline_terminated (map c_str entries) in
  host_malloc (size text + 1) = true ->
  size text <= INT_MAX ->
  list_directory path true k =
    (mkCaptured (Some (text +:+ String "000"%char "")) (Some (size text)),
     mkKernel (k_fs k) (last_status k)
       ((text +:+ String "000"%char "") :: k_buffers k)).
Proof.
  intros Hdir text Hmalloc Hfit.
  unfold list_directory. simpl. rewrite Hdir.
  rewrite list_directory_loop_spec. change ("" +:+ ?x) with x.
  fold text. rewrite Hmalloc. simpl.
  rewrite (c_str_id text) by apply newline_terminated_no_nul.
  rewrite to_int_small by (unfold size in *; lia). reflexivity.
Qed.

End MorePassthrough.

(** ** More on ls *)

Lemma back_append_char (s : string) (c : ascii) :
  back (s +:+ String c "") = Some c.
Proof.
  induction s as [|a s IH]; [reflexivity|].
  change (String a s +:+ String c "") with (String a (s +:+ String c "")).
  destruct s as [|b s]; [reflexivity|]. exact IH.
Qed.

Section MoreListing.

Context {FS : Type} `{!Host FS}.

(** X15 a slash at the end of the directory makes no difference to the
    listing: [ls] asks [stat] about the same paths for [dir/] as for
    [dir], so when both open with the same entries the two results are
    equal. *)
Theorem ls_trailing_slash (args : string) (entries : list string)
    (fs : FS) :
  mem "000"%char args = false ->
  args <> "" ->
  back args <> Some "/"%char ->
  host_opendir fs (args +:+ "/") = Some entries ->
  host_opendir fs args = Some entries ->
  ls (args +:+ "/") fs = ls args fs.
Proof.
  intros Hnul Hargs Hback Hslash Hplain.
  assert (Hp1 : ls_path (args +:+ "/") = args +:+ "/").
  { unfold ls_path. destruct args; [done|]. simpl empty. cbv iota.
    apply c_str_id. by rewrite mem_append, Hnul. }
  assert (Hp2 : ls_path args = args).
  { unfold ls_path. destruct args; [done|]. simpl empty. cbv iota.
    by apply c_str_id. }
  assert (Hsame : spec_ls_entries fs (args +:+ "/") entries
                  = spec_ls_entries fs args entries).
  { unfold spec_ls_entries. apply map_ext. intros e.
    unfold spec_ls_entry, ls_full_path.
    rewrite back_append_char, bool_decide_eq_true_2 by done.
    by rewrite bool_decide_eq_false_2 by done. }
  unfold ls. rewrite Hp1, Hp2, Hslash, Hplain.
  rewrite !ls_loop_spec by (done || by destruct args).
  by rewrite Hsame.
Qed.

End MoreListing.

Lemma write_file_read_file_witness :
  exists k1 k2,
    write_file "/tmp/w" "data" (boot MemFS.sample) = (0, k1) /\
    k_fs k1 = (MemFS.ofstream_write
                 (default MemFS.sample
                    (MemFS.ofstream_open MemFS.sample "/tmp/w"))
                 "/tmp/w" "data").2 /\
    read_file "/tmp/w" true k1 =
      (mkCaptured (Some (c_str "data" +:+ String "000"%char ""))
         (Some (size (c_str "data"))), k2).
Proof.
  apply (write_file_read_file "/tmp/w" "data" (boot MemFS.sample)
           (default MemFS.sample (MemFS.ofstream_open MemFS.sample "/tmp/w"))
           _ "data");
    try reflexivity.
  vm_compute. discriminate.
Defined.

Lemma write_file_then_cat_witness :
  exists k1,
    write_file "/tmp/w" "data" (boot MemFS.sample) = (0, k1) /\
    k_fs k1 = (MemFS.ofstream_write
                 (default MemFS.sample
                    (MemFS.ofstream_open MemFS.sample "/tmp/w"))
                 "/tmp/w" "data").2 /\
    execute_command ("cat " +:+ c_str "/tmp/w") (k_fs k1)
      = Ret (mkResult 0 (c_str "data"), k_fs k1).
Proof.
  apply (write_file_then_cat "/tmp/w" "data" (boot MemFS.sample)
           (default MemFS.sample
              (MemFS.ofstream_open MemFS.sample "/tmp/w")) _ "data");
    [discriminate | reflexivity | reflexivity | reflexivity].
Defined.

Lemma echo_then_read_file_witness :
  let fs1 :=
    default MemFS.sample (MemFS.ofstream_open MemFS.sample "/tmp/w") in
  let fs2 := (MemFS.ofstream_write fs1 "/tmp/w" "data").2 in
  execute_command ("echo " +:+ "data " +:+ String ">"%char " /tmp/w")
    MemFS.sample = Ret (mkResult 0 "", fs2) /\
  (read_file (ltrim_of blanks " /tmp/w") true (mkKernel fs2 0 [])).1 =
    mkCaptured (Some (rtrim_of blanks "data " +:+ String "000"%char ""))
      (Some (size (rtrim_of blanks "data "))).
Proof.
  intros fs1 fs2.
  apply (echo_then_read_file "data " " /tmp/w" MemFS.sample fs1 fs2 "data");
    try reflexivity; [discriminate | vm_compute; discriminate].
Defined.

Lemma delete_file_agrees_with_rm_witness :
  exists r,
    execute_command ("rm " +:+ c_str "/tmp/a.txt") (k_fs (boot MemFS.sample))
      = Ret (r, k_fs (delete_file "/tmp/a.txt" (boot MemFS.sample)).2) /\
    code r = (delete_file "/tmp/a.txt" (boot MemFS.sample)).1.
Proof.
  apply (delete_file_agrees_with_rm "/tmp/a.txt" (boot MemFS.sample)).
  discriminate.
Defined.

Lemma list_directory_output_witness :
  list_directory "/tmp" true (boot MemFS.sample) =
    (mkCaptured (Some (("a.txt" +:+ nl) +:+ String "000"%char ""))
       (Some 6),
     mkKernel MemFS.sample 0 [("a.txt" +:+ nl) +:+ String "000"%char ""]).
Proof.
  apply (list_directory_output "/tmp" (boot MemFS.sample) ["a.txt"]);
    [reflexivity | reflexivity | vm_compute; discriminate].
Defined.

Lemma ls_trailing_slash_witness :
  let fs : MemFS.t :=
    list_to_map [("/d", MemFS.Dir ["f"]); ("/d/", MemFS.Dir ["f"]);
                 ("/d/f", MemFS.File "")] in
  ls ("/d" +:+ "/") fs = ls "/d" fs.
Proof.
  intros fs. apply (ls_trailing_slash "/d" ["f"] fs);
    [reflexivity | discriminate | discriminate | reflexivity | reflexivity].
Defined.

Lemma unknown_command_iff_witness :
  exists fs',
    execute_command "LS /tmp" MemFS.sample
      = Ret (mkResult (-1) "Unknown command", fs').
Proof.
  apply (proj2 (unknown_command_iff "LS /tmp" MemFS.sample)).
  apply (proj1 (bool_decide_eq_false _)). reflexivity.
Defined.
